(** * itrk: the idea store of [itrk/data.py]

    A shallow embedding of the two classes of [src/itrk/data.py]:
    [Idea] (one record and its markdown file form) and [IdeaManager]
    (a directory of such files with create / load / update / delete).

    Python values are modelled as follows.
    - [str] is [string]; a character is one of the 256 code points of
      [ascii] (Latin-1), which covers every delimiter the program looks at.
    - [int] is [Z].
    - an exception is a constructor of [exn]; a call that may raise returns
      a [result].
    - the file system is a finite map from paths to nodes, threaded through
      every operation; the wall clock is an argument [now] of the
      operations that read it.
    - the YAML library is not part of the repository: the program is
      modelled over an arbitrary library ([YamlLib]); [PyYaml] is an
      executable model of PyYAML on the documents this program writes. *)

From Stdlib Require Import Ascii SpecFloat.
From stdpp Require Import base numbers option list strings pretty gmap fin_maps.

(** ** Python strings *)

Module PyStr.

Definition LF : ascii := "010"%char.
Definition CR : ascii := "013"%char.

(** The one-character string holding a line feed, Python's ["\n"]. *)
Definition nl : string := String LF "".

(** [str.isspace] on a single character, for code points below 256:
    U+0009..U+000D, U+001C..U+0020, U+0085 and U+00A0. *)
Definition isspace (c : ascii) : bool :=
  let n := N_of_ascii c in
  ((9 <=? n) && (n <=? 13) || (28 <=? n) && (n <=? 32)
   || (n =? 133) || (n =? 160))%N.

(** [c in s] for a character [c]. *)
Fixpoint mem (c : ascii) (s : string) : bool :=
  match s with
  | "" => false
  | String a s' => if decide (a = c) then true else mem c s'
  end.

(** [all(f(c) for c in s)] *)
Fixpoint all_chars (f : ascii → bool) (s : string) : bool :=
  match s with
  | "" => true
  | String a s' => f a && all_chars f s'
  end.

(** [s[-1]], if any. *)
Fixpoint last_char (s : string) : option ascii :=
  match s with
  | "" => None
  | String a "" => Some a
  | String _ s' => last_char s'
  end.

(** [s.lstrip()] *)
Fixpoint lstrip (s : string) : string :=
  match s with
  | "" => ""
  | String c s' => if isspace c then lstrip s' else s
  end.

(** [s.rstrip()] *)
Fixpoint rstrip (s : string) : string :=
  match s with
  | "" => ""
  | String c s' =>
      match rstrip s' with
      | "" => if isspace c then "" else String c ""
      | t => String c t
      end
  end.

(** [s.strip()] *)
Definition strip (s : string) : string := rstrip (lstrip s).

(** [s.startswith(p)] *)
Fixpoint startswith (p s : string) : bool :=
  match p, s with
  | "", _ => true
  | String a p', String b s' => if decide (a = b) then startswith p' s' else false
  | String _ _, "" => false
  end.

(** [s[n:]] *)
Fixpoint drop (n : nat) (s : string) : string :=
  match n, s with
  | O, _ => s
  | S n', String _ s' => drop n' s'
  | S _, "" => ""
  end.

(** [s.endswith(suffix)] *)
Definition endswith (suffix s : string) : bool :=
  bool_decide (String.length suffix ≤ String.length s)
  && bool_decide (drop (String.length s - String.length suffix) s = suffix).

(** The first occurrence of [sep] in [s], as the text before it and the
    text after it ([s.partition(sep)] without the separator). *)
Fixpoint find_sep (sep s : string) : option (string * string) :=
  if startswith sep s then Some ("", drop (String.length sep) s)
  else match s with
       | "" => None
       | String c s' =>
           match find_sep sep s' with
           | Some (a, b) => Some (String c a, b)
           | None => None
           end
       end.

(** [s.split(sep, maxsplit)] for a non-empty [sep]: at most [maxsplit]
    splits, scanning from the left. *)
Fixpoint split (sep : string) (maxsplit : nat) (s : string) : list string :=
  match maxsplit with
  | O => [s]
  | S n =>
      match find_sep sep s with
      | None => [s]
      | Some (a, b) => a :: split sep n b
      end
  end.

(** Reading a file opened in text mode with the default [newline=None]:
    every ["\r\n"] and every lone ["\r"] arrives as ["\n"].  [after_cr]
    remembers that the previous character was a carriage return. *)
Fixpoint universal_newlines_from (after_cr : bool) (s : string) : string :=
  match s with
  | "" => ""
  | String c s' =>
      if decide (c = CR) then String LF (universal_newlines_from true s')
      else if decide (c = LF) then
        if after_cr then universal_newlines_from false s'
        else String LF (universal_newlines_from false s')
      else String c (universal_newlines_from false s')
  end.

Definition universal_newlines (s : string) : string :=
  universal_newlines_from false s.

(** Does the text read so far end in a carriage return?  [after_cr] answers
    for the empty text. *)
Fixpoint ends_with_cr (after_cr : bool) (s : string) : bool :=
  match s with
  | "" => after_cr
  | String c s' => ends_with_cr (bool_decide (c = CR)) s'
  end.

(** [str(n)] for an [int], also what an f-string writes for [{n}]. *)
Definition str_of_int (n : Z) : string := pretty n.

(** *** [int(s)] for a [str] *)

Definition digit_of (c : ascii) : option Z :=
  let n := N_of_ascii c in
  if ((48 <=? n) && (n <=? 57))%N then Some (Z.of_N n - 48)%Z else None.

(** Digits with single underscores between them, accumulated in base ten.
    [prev_digit] tells whether the previous character was a digit (an
    underscore is only legal right after one and right before one). *)
Fixpoint int_digits (prev_digit : bool) (acc : Z) (s : string) : option Z :=
  match s with
  | "" => if prev_digit then Some acc else None
  | String c s' =>
      match digit_of c with
      | Some d => int_digits true (10 * acc + d)%Z s'
      | None =>
          if decide (c = "_"%char) then
            if prev_digit then
              match s' with
              | "" => None
              | _ => int_digits false acc s'
              end
            else None
          else None
      end
  end.

(** The whitespace that the integer parser skips before and after the
    number: the six ASCII characters U+0009..U+000D and U+0020. *)
Definition ascii_space (c : ascii) : bool :=
  let n := N_of_ascii c in ((9 <=? n) && (n <=? 13) || (n =? 32))%N.

(** The whitespace that [int] skips around the number in a [str]: before
    parsing, every whitespace character from U+0080 on is turned into a
    space (U+0085 and U+00A0 below 256), the characters below U+0080 are
    left as they are.  So U+001C..U+001F, which [str.strip] removes, are
    not skipped. *)
Definition int_space (c : ascii) : bool :=
  ascii_space c || (128 <=? N_of_ascii c)%N && isspace c.

Fixpoint lstrip_with (space : ascii → bool) (s : string) : string :=
  match s with
  | "" => ""
  | String c s' => if space c then lstrip_with space s' else s
  end.

Fixpoint rstrip_with (space : ascii → bool) (s : string) : string :=
  match s with
  | "" => ""
  | String c s' =>
      match rstrip_with space s' with
      | "" => if space c then "" else String c ""
      | t => String c t
      end
  end.

(** The number between the skipped whitespace: one sign is accepted, then
    the digits; [None] stands for [ValueError]. *)
Definition int_of_text (space : ascii → bool) (s : string) : option Z :=
  match rstrip_with space (lstrip_with space s) with
  | String "-" t => Z.opp <$> int_digits false 0 t
  | String "+" t => int_digits false 0 t
  | t => int_digits false 0 t
  end.

(** [int(s)] for a [str]. *)
Definition int_of_str (s : string) : option Z := int_of_text int_space s.

(** [int(b)] for a [bytes]: only ASCII whitespace is skipped. *)
Definition int_of_bytes (b : string) : option Z := int_of_text ascii_space b.

End PyStr.

Import PyStr.

(** ** Exceptions and results *)

(** The exception classes the program can meet.  [FormatError] and
    [StorageError] are the two error kinds of the specification; the source
    defines no such class and no function below raises them. *)
Inductive exn :=
  | ValueError | KeyError | TypeError | AttributeError | OverflowError
  | YAMLError
  | FileNotFoundError | FileExistsError | IsADirectoryError | NotADirectoryError
  | FormatError | StorageError.

#[global] Instance exn_eq_dec : EqDecision exn.
Proof. solve_decision. Defined.

Inductive result (A : Type) :=
  | Ok (a : A)
  | Raise (e : exn).
Arguments Ok {A} a.
Arguments Raise {A} e.

#[global] Instance result_ret : MRet result := @Ok.
#[global] Instance result_bind : MBind result := λ A B f r,
  match r with
  | Ok a => f a
  | Raise e => Raise e
  end.

#[global] Instance result_fmap : FMap result := λ A B f r,
  match r with
  | Ok a => Ok (f a)
  | Raise e => Raise e
  end.

(** ** YAML values and the YAML library *)

(** A [datetime.date] or a [datetime.datetime], the latter with the
    offset of its time zone in seconds when it has one. *)
Inductive timestamp :=
  | Date (year month day : Z)
  | DateTime (year month day hour minute second microsecond : Z)
             (utcoffset : option Z).

(** What [yaml.safe_load] can hand back: [None], [bool], [int], [float]
    (an IEEE number: a zero, an infinity, a NaN or a signed mantissa times
    a power of two), [str], [bytes], [datetime.date] and
    [datetime.datetime], [list], [tuple] (the pairs of an [!!omap] or
    [!!pairs] list), [set] and [dict] (items in insertion order).  A dict
    is modelled by its items with a [str] key: the program looks up and
    writes [str] keys only, and a key of another type never equals one.
    Values are finite: a document whose alias points into its own anchor
    gives a cyclic list or dict, which has no term here; the program never
    looks inside a list or a dict that it finds under a key. *)
#[warnings="-register-all"]
Inductive yval :=
  | YNull
  | YBool (b : bool)
  | YInt (n : Z)
  | YFloat (f : spec_float)
  | YStr (s : string)
  | YBytes (b : string)
  | YTimestamp (t : timestamp)
  | YSeq (l : list yval)
  | YTuple (l : list yval)
  | YSet (l : list yval)
  | YMap (d : list (string * yval)).

(** The two library calls of the program: [yaml.dump(v,
    default_flow_style=False)] and [yaml.safe_load(text)].  The loader
    returns a value or raises: [yaml.YAMLError] on a text that is not YAML,
    and whatever built-in exception a constructor of the library lets
    through (such as the [ValueError] of an impossible date).  The two
    error kinds of the specification are unknown to the library. *)
Class YamlLib := {
  yaml_dump : yval → string;
  yaml_safe_load : string → result yval;
  yaml_safe_load_raises text e :
    yaml_safe_load text = Raise e → e ≠ FormatError ∧ e ≠ StorageError;
}.

(** [d.get(key)] on the items of a dict, for a [str] key. *)
Fixpoint dict_get (key : string) (d : list (string * yval)) : option yval :=
  match d with
  | [] => None
  | (k, v) :: d' => if decide (k = key) then Some v else dict_get key d'
  end.

(** [v[key]] for a [str] key: [KeyError] on a dict without the key,
    [TypeError] on anything that is not a dict. *)
Definition py_getitem (v : yval) (key : string) : result yval :=
  match v with
  | YMap d =>
      match dict_get key d with
      | Some x => Ok x
      | None => Raise KeyError
      end
  | _ => Raise TypeError
  end.

(** [v.get(key, default)]: only a dict has the method. *)
Definition py_get (v : yval) (key : string) (default : yval) : result yval :=
  match v with
  | YMap d => Ok (from_option (λ x, x) default (dict_get key d))
  | _ => Raise AttributeError
  end.

(** [int(f)] for a [float]: the number without its fraction; an infinity
    raises [OverflowError], a NaN [ValueError]. *)
Definition int_of_float (f : spec_float) : result Z :=
  match f with
  | S754_zero _ => Ok 0%Z
  | S754_infinity _ => Raise OverflowError
  | S754_nan => Raise ValueError
  | S754_finite s m e =>
      let n := Z.shiftl (Z.pos m) e in Ok (if s then - n else n)%Z
  end.

(** [int(v)] *)
Definition py_int (v : yval) : result Z :=
  match v with
  | YInt n => Ok n
  | YBool b => Ok (if b then 1 else 0)%Z
  | YFloat f => int_of_float f
  | YStr s =>
      match int_of_str s with
      | Some n => Ok n
      | None => Raise ValueError
      end
  | YBytes b =>
      match int_of_bytes b with
      | Some n => Ok n
      | None => Raise ValueError
      end
  | YNull | YTimestamp _ | YSeq _ | YTuple _ | YSet _ | YMap _ =>
      Raise TypeError
  end.

(** ** [class Idea] *)

(** [title] and [tags] hold whatever YAML value the file gives:
    [from_markdown] coerces [id] and [modified] only. *)
Record Idea := mkIdea {
  id : Z;
  title : yval;
  modified : Z;
  tags : yval;
  content : string;
}.

(** Attribute assignment, one field at a time. *)
Definition set_title (v : yval) (r : Idea) : Idea :=
  mkIdea (id r) v (modified r) (tags r) (content r).
Definition set_tags (v : yval) (r : Idea) : Idea :=
  mkIdea (id r) (title r) (modified r) v (content r).
Definition set_content (s : string) (r : Idea) : Idea :=
  mkIdea (id r) (title r) (modified r) (tags r) s.
Definition set_modified (n : Z) (r : Idea) : Idea :=
  mkIdea (id r) (title r) n (tags r) (content r).

(** A [List[str]] as a YAML value. *)
Definition str_list (l : list string) : yval := YSeq (YStr <$> l).

(** A record as the type hints of [Idea.__init__] describe it: the title a
    string, the tags a list of strings. *)
Definition valid_idea (r : Idea) : Prop :=
  (∃ s, title r = YStr s) ∧ (∃ l, tags r = str_list l).

(** The dict built by [to_markdown], in insertion order. *)
Definition metadata_of (r : Idea) : yval :=
  YMap [ ("id", YInt (id r)); ("title", title r);
         ("modified", YInt (modified r)); ("tags", tags r) ].

Section Program.
Context {Y : YamlLib}.

(** The part of [Idea.from_markdown] after [file.read()]. *)
Definition from_markdown_text (text : string) : result Idea :=
  match tail (split "---" 2 text) with
  | [metadata; content] =>
      metadata ← yaml_safe_load metadata;
      i ← py_getitem metadata "id" ≫= py_int;
      t ← py_getitem metadata "title";
      m ← py_getitem metadata "modified" ≫= py_int;
      g ← py_get metadata "tags" (YSeq []);
      Ok (mkIdea i t m g (strip content))
  | _ => Raise ValueError
  end.

(** [Idea.to_markdown] *)
Definition to_markdown (r : Idea) : string :=
  "---" +:+ nl +:+ strip (yaml_dump (metadata_of r)) +:+ nl
  +:+ "---" +:+ nl +:+ nl +:+ content r.

End Program.

(** ** The file system *)

(** A path is its list of components below the directory that relative
    paths start from; [os.path.join(d, name)] is [d ++ [name]] for a [name]
    without separator.  A node is a regular file with its text, or a
    directory. *)
Inductive node :=
  | File (text : string)
  | Dir.

#[global] Instance node_eq_dec : EqDecision node.
Proof. solve_decision. Defined.

Abbreviation path := (list string) (only parsing).
Abbreviation filesystem := (gmap (list string) node) (only parsing).

(** [os.path.dirname] on components. *)
Definition dirname (p : path) : path := removelast p.

(** [os.path.exists(p)] *)
Definition os_path_exists (fs : filesystem) (p : path) : bool :=
  bool_decide (is_Some (fs !! p)).

(** [open(p, "r").read()]: the text arrives with universal newlines. *)
Definition open_read (fs : filesystem) (p : path) : result string :=
  match fs !! p with
  | Some (File text) => Ok (universal_newlines text)
  | Some Dir => Raise IsADirectoryError
  | None => Raise FileNotFoundError
  end.

(** [open(p, "w").write(text)]: creates or truncates the file; the
    directory that holds it must exist.  The text is stored as written
    (a POSIX system, where no newline is translated on output). *)
Definition open_write (p : path) (text : string) (fs : filesystem)
  : result filesystem :=
  match fs !! p with
  | Some Dir => Raise IsADirectoryError
  | _ =>
      match fs !! dirname p with
      | Some Dir => Ok (<[p := File text]> fs)
      | Some (File _) => Raise NotADirectoryError
      | None => Raise FileNotFoundError
      end
  end.

(** [os.remove(p)] *)
Definition os_remove (p : path) (fs : filesystem) : result filesystem :=
  match fs !! p with
  | Some (File _) => Ok (delete p fs)
  | Some Dir => Raise IsADirectoryError
  | None => Raise FileNotFoundError
  end.

(** The name of [p] inside [d], when [p] is an entry of [d]. *)
Fixpoint child_name (d p : path) : option string :=
  match d, p with
  | [], [n] => Some n
  | x :: d', y :: p' => if decide (x = y) then child_name d' p' else None
  | _, _ => None
  end.

(** [os.listdir(d)]: the names of the entries of [d], in the order the
    map enumerates them (the source relies on no order). *)
Definition os_listdir (fs : filesystem) (d : path) : result (list string) :=
  match fs !! d with
  | Some Dir => Ok (omap (λ e, child_name d e.1) (map_to_list fs))
  | Some (File _) => Raise NotADirectoryError
  | None => Raise FileNotFoundError
  end.

(** [os.mkdir(p)] *)
Definition os_mkdir (p : path) (fs : filesystem) : result filesystem :=
  match fs !! p with
  | Some _ => Raise FileExistsError
  | None =>
      match fs !! dirname p with
      | Some Dir => Ok (<[p := Dir]> fs)
      | Some (File _) => Raise NotADirectoryError
      | None => Raise FileNotFoundError
      end
  end.

(** [os.makedirs(name)] on the reversed path [tail :: rev head]: the
    missing ancestors are made first, then the directory itself.  The
    [FileExistsError] that the library swallows around the recursive call
    guards against another process; here it keeps the file system as it
    was. *)
Fixpoint os_makedirs_rev (rp : path) (fs : filesystem) : result filesystem :=
  match rp with
  | [] => os_mkdir [] fs
  | tail :: rhead =>
      fs1 ← (match rhead with
             | [] => Ok fs
             | _ :: _ =>
                 if os_path_exists fs (rev rhead) then Ok fs
                 else match os_makedirs_rev rhead fs with
                      | Raise FileExistsError => Ok fs
                      | r => r
                      end
             end);
      os_mkdir (rev (tail :: rhead)) fs1
  end.

Definition os_makedirs (p : path) (fs : filesystem) : result filesystem :=
  os_makedirs_rev (rev p) fs.

(** ** The clock *)

(** What [datetime.now()] returns: a naive local date and time. *)
Record datetime := mkDatetime {
  year : Z; month : Z; day : Z;
  hour : Z; minute : Z; second : Z; microsecond : Z;
}.

(** The ranges the [datetime] class enforces. *)
Definition valid_datetime (t : datetime) : Prop :=
  (1 ≤ year t ≤ 9999 ∧ 1 ≤ month t ≤ 12 ∧ 1 ≤ day t ≤ 31 ∧
   0 ≤ hour t ≤ 23 ∧ 0 ≤ minute t ≤ 59 ∧ 0 ≤ second t ≤ 59 ∧
   0 ≤ microsecond t ≤ 999999)%Z.

(** A decimal digit as a character. *)
Definition digit_char (d : Z) : ascii := ascii_of_N (48 + Z.to_N d).

(** A two-digit, zero-padded field of [strftime]. *)
Definition pad2 (n : Z) : string :=
  String (digit_char (n `div` 10)) (String (digit_char (n `mod` 10)) "").

(** [t.strftime("%y%m%d%H%M%S")] *)
Definition strftime (t : datetime) : string :=
  pad2 (year t `mod` 100) +:+ pad2 (month t) +:+ pad2 (day t)
  +:+ pad2 (hour t) +:+ pad2 (minute t) +:+ pad2 (second t).

(** ** [class IdeaManager] *)

Record IdeaManager := mkIdeaManager { directory : path }.

Section Manager.
Context {Y : YamlLib}.

(** [Idea.from_markdown(file_path)] *)
Definition from_markdown (fs : filesystem) (file_path : path) : result Idea :=
  text ← open_read fs file_path;
  from_markdown_text text.

(** [IdeaManager.__init__] *)
Definition IdeaManager_init (directory : path) (fs : filesystem)
  : result (IdeaManager * filesystem) :=
  if os_path_exists fs directory then Ok (mkIdeaManager directory, fs)
  else fs' ← os_makedirs directory fs; Ok (mkIdeaManager directory, fs').

(** [IdeaManager._get_idea_file_path] *)
Definition get_idea_file_path (self : IdeaManager) (idea_id : Z) : path :=
  directory self ++ ["idea" +:+ str_of_int idea_id +:+ ".md"].

(** [IdeaManager.generate_timestamp], at the instant [now]. *)
Definition generate_timestamp (now : datetime) : result Z :=
  match int_of_str (strftime now) with
  | Some n => Ok n
  | None => Raise ValueError
  end.

(** The loop of [load_all_ideas] over the listed names. *)
Fixpoint load_each (self : IdeaManager) (fs : filesystem)
    (names : list string) : result (list Idea) :=
  match names with
  | [] => Ok []
  | file_name :: rest =>
      if endswith ".md" file_name then
        idea ← from_markdown fs (directory self ++ [file_name]);
        ideas ← load_each self fs rest;
        Ok (idea :: ideas)
      else load_each self fs rest
  end.

(** [IdeaManager.load_all_ideas] *)
Definition load_all_ideas (self : IdeaManager) (fs : filesystem)
  : result (list Idea) :=
  names ← os_listdir fs (directory self);
  load_each self fs names.

(** [IdeaManager.load_idea_by_id] *)
Definition load_idea_by_id (self : IdeaManager) (fs : filesystem)
    (idea_id : Z) : result (option Idea) :=
  let file_path := get_idea_file_path self idea_id in
  if os_path_exists fs file_path then Some <$> from_markdown fs file_path
  else Ok None.

(** [IdeaManager.save_idea] *)
Definition save_idea (self : IdeaManager) (idea : Idea) (fs : filesystem)
  : result filesystem :=
  open_write (get_idea_file_path self (id idea)) (to_markdown idea) fs.

(** [IdeaManager.create_new_idea] *)
Definition create_new_idea (self : IdeaManager) (now : datetime)
    (title : string) (tags : list string) (content : string)
    (fs : filesystem) : result (Idea * filesystem) :=
  new_id ← generate_timestamp now;
  let new_idea := mkIdea new_id (YStr title) new_id (str_list tags) content in
  fs' ← save_idea self new_idea fs;
  Ok (new_idea, fs').

(** Truth value of an [Optional[str]] argument: [None] and [""] are false. *)
Definition truthy (o : option string) : bool :=
  match o with
  | Some (String _ _) => true
  | _ => false
  end.

(** The field assignments of [update_idea] on the loaded record:
    [if title:], [if tags is not None:], [if content:], then [modified]. *)
Definition updated (idea : Idea) (title : option string)
    (tags : option (list string)) (content : option string) (stamp : Z)
  : Idea :=
  let idea := if truthy title then set_title (YStr (default "" title)) idea
              else idea in
  let idea := match tags with
              | Some l => set_tags (str_list l) idea
              | None => idea
              end in
  let idea := if truthy content then set_content (default "" content) idea
              else idea in
  set_modified stamp idea.

(** [IdeaManager.update_idea], called at the instant [now].  [if idea:]
    is true of every [Idea] object (the class defines neither [__bool__]
    nor [__len__]), so the test separates [None] from a loaded record. *)
Definition update_idea (self : IdeaManager) (now : datetime) (idea_id : Z)
    (title : option string) (tags : option (list string))
    (content : option string) (fs : filesystem)
  : result (bool * filesystem) :=
  loaded ← load_idea_by_id self fs idea_id;
  match loaded with
  | Some idea =>
      stamp ← generate_timestamp now;
      fs' ← save_idea self (updated idea title tags content stamp) fs;
      Ok (true, fs')
  | None => Ok (false, fs)
  end.

(** [IdeaManager.delete_idea] *)
Definition delete_idea (self : IdeaManager) (idea_id : Z) (fs : filesystem)
  : result (bool * filesystem) :=
  let file_path := get_idea_file_path self idea_id in
  if os_path_exists fs file_path then
    fs' ← os_remove file_path fs; Ok (true, fs')
  else Ok (false, fs).

End Manager.

(** ** An executable model of PyYAML

    The theorems about the program hold for every [YamlLib]; concrete runs
    need one.  [PyYaml] follows PyYAML 6 on the documents this program
    writes and on hand-written files of the same shape:
    - [dump] writes a dict in block style with its keys sorted, a list as
      [- item] lines (not indented under a key), an empty list as [[]], a
      string plain when PyYAML's scalar analysis and resolver allow it,
      else single-quoted, else double-quoted with escapes;
    - [safe_load] reads blank lines, comments, a block mapping whose values
      are scalars, flow lists of scalars or block lists of scalars, a block
      list of scalars, and a single scalar.
    Where the model is coarser than the library it errs on one side: lines
    are never folded (PyYAML folds after column 80), a string with a line
    break or a leading digit, sign or dot is quoted where PyYAML may write
    it plain, and the loader reports [YAMLError] on nested blocks, on
    floats other than the infinities and NaN, on dates and on the other
    syntax it does not read.  Of a float with digits, a date, binary data,
    a tuple and a set, [dump] writes the tag only, which is not the text of the
    library and which the loader of the model does not read: no run below
    dumps one. *)
Module PyYamlModel.

Definition DQ : ascii := "034"%char.
Definition BS : ascii := "092"%char.
Definition SP : ascii := " "%char.

Definition printable (c : ascii) : bool :=
  let n := N_of_ascii c in ((32 <=? n) && (n <=? 126))%N.

Definition bool_words : list string :=
  ["yes"; "Yes"; "YES"; "true"; "True"; "TRUE"; "on"; "On"; "ON";
   "no"; "No"; "NO"; "false"; "False"; "FALSE"; "off"; "Off"; "OFF"].
Definition true_words : list string :=
  ["yes"; "Yes"; "YES"; "true"; "True"; "TRUE"; "on"; "On"; "ON"].
Definition null_words : list string := ["~"; "null"; "Null"; "NULL"].
Definition inf_words : list string :=
  [".inf"; ".Inf"; ".INF"; "+.inf"; "+.Inf"; "+.INF"].
Definition neg_inf_words : list string := ["-.inf"; "-.Inf"; "-.INF"].
Definition nan_words : list string := [".nan"; ".NaN"; ".NAN"].

(** *** Dumping *)

(** May the resolver read the plain scalar [s] as something else than a
    string?  Exact for the word lists, coarse (first character) for
    numbers and dates. *)
Definition resolves_other (s : string) : bool :=
  bool_decide (s ∈ bool_words ++ null_words ++ ["<<"; "="])
  || match s with
     | String c _ => mem c "-+.0123456789"
     | "" => true
     end.

(** A [": "] or a [" #"] inside, or a [":"] at the end. *)
Fixpoint has_block_indicator (s : string) : bool :=
  match s with
  | "" => false
  | String ":" "" => true
  | String ":" (String " " _) => true
  | String " " (String "#" _) => true
  | String _ s' => has_block_indicator s'
  end.

(** PyYAML's [allow_block_plain] together with the resolver check. *)
Definition plain_ok (s : string) : bool :=
  match s with
  | "" => false
  | String c rest =>
      all_chars printable s
      && negb (mem c "#,[]{}&*!|>'%@`") && negb (bool_decide (c = DQ))
      && negb (bool_decide (c = SP))
      && negb (mem c "?:-" && match rest with
                             | "" => true
                             | String d _ => bool_decide (d = SP)
                             end)
      && negb (bool_decide (last_char s = Some SP))
      && negb (startswith "---" s) && negb (startswith "..." s)
      && negb (has_block_indicator s)
      && negb (resolves_other s)
  end.

Definition hex_digit (n : N) : ascii :=
  if (n <? 10)%N then ascii_of_N (48 + n) else ascii_of_N (55 + n).

(** One character inside a double-quoted scalar. *)
Definition escape (c : ascii) : string :=
  let n := N_of_ascii c in
  if decide (c = DQ) then String BS (String DQ "")
  else if decide (c = BS) then String BS (String BS "")
  else if printable c then String c ""
  else match n with
       | 0 => String BS "0" | 7 => String BS "a" | 8 => String BS "b"
       | 9 => String BS "t" | 10 => String BS "n" | 11 => String BS "v"
       | 12 => String BS "f" | 13 => String BS "r" | 27 => String BS "e"
       | 133 => String BS "N" | 160 => String BS "_"
       | _ => String BS (String "x" (String (hex_digit (n `div` 16))
                                       (String (hex_digit (n `mod` 16)) "")))
       end%N.

Fixpoint concat_map (f : ascii → string) (s : string) : string :=
  match s with
  | "" => ""
  | String a s' => f a +:+ concat_map f s'
  end.

Definition double_quoted (s : string) : string :=
  String DQ (concat_map escape s +:+ String DQ "").

Definition single_quoted (s : string) : string :=
  "'" +:+ concat_map (λ c, if decide (c = "'"%char) then "''" else String c "") s
  +:+ "'".

Definition dump_str (s : string) : string :=
  if plain_ok s then s
  else if all_chars printable s then single_quoted s
  else double_quoted s.

(** Insertion of an emitted entry by key, [sorted(mapping.items())]. *)
Fixpoint insert_sorted {A} (e : string * A) (l : list (string * A))
  : list (string * A) :=
  match l with
  | [] => [e]
  | e' :: l' =>
      if String.leb e.1 e'.1 then e :: l else e' :: insert_sorted e l'
  end.

Definition indent (line : string) : string := "  " +:+ line.

Definition item_lines (lines : list string) : list string :=
  match lines with
  | [] => []
  | first :: rest => ("- " +:+ first) :: (indent <$> rest)
  end.

Definition is_block (v : yval) : bool :=
  match v with
  | YSeq (_ :: _) | YMap (_ :: _) => true
  | _ => false
  end.

Definition entry_lines (key : string) (v : yval) (lines : list string)
  : list string :=
  match v with
  | YSeq (_ :: _) => (dump_str key +:+ ":") :: lines
  | YMap (_ :: _) => (dump_str key +:+ ":") :: (indent <$> lines)
  | _ => [dump_str key +:+ ": " +:+ default "" (head lines)]
  end.

(** The lines of a node in block style. *)
Fixpoint emit (v : yval) : list string :=
  match v with
  | YNull => ["null"]
  | YBool b => [if b then "true" else "false"]
  | YInt n => [str_of_int n]
  | YFloat S754_nan => [".nan"]
  | YFloat (S754_infinity s) => [if s then "-.inf" else ".inf"]
  | YFloat (S754_zero s) => [if s then "-0.0" else "0.0"]
  | YFloat (S754_finite _ _ _) => ["!!float"]
  | YStr s => [dump_str s]
  | YBytes _ => ["!!binary"]
  | YTimestamp _ => ["!!timestamp"]
  | YTuple _ => ["!!python/tuple"]
  | YSet _ => ["!!set"]
  | YSeq [] => ["[]"]
  | YSeq l => concat (map (λ x, item_lines (emit x)) l)
  | YMap [] => ["{}"]
  | YMap d =>
      concat (snd <$> foldr insert_sorted []
                        (map (λ e, (e.1, entry_lines e.1 e.2 (emit e.2))) d))
  end.

Definition unlines (lines : list string) : string :=
  foldr (λ l acc, l +:+ nl +:+ acc) "" lines.

(** [yaml.dump(v, default_flow_style=False)]; a plain scalar at the top
    gets the document end marker. *)
Definition dump (v : yval) : string :=
  match v with
  | YNull | YBool _ | YInt _ | YFloat _ => unlines (emit v ++ ["..."])
  | YStr s => if plain_ok s then unlines [s; "..."] else unlines (emit v)
  | _ => unlines (emit v)
  end.

(** *** Loading *)

Definition lstrip_spaces : string → string :=
  fix go s := match s with
              | String " " s' => go s'
              | _ => s
              end.

Definition strip_spaces (s : string) : string :=
  String.rev (lstrip_spaces (String.rev (lstrip_spaces s))).

Definition hex_value (c : ascii) : option N :=
  let n := N_of_ascii c in
  if ((48 <=? n) && (n <=? 57))%N then Some (n - 48)%N
  else if ((65 <=? n) && (n <=? 70))%N then Some (n - 55)%N
  else if ((97 <=? n) && (n <=? 102))%N then Some (n - 87)%N
  else None.

Definition unescape (c : ascii) : option ascii :=
  match c with
  | "0" => Some "000" | "a" => Some "007" | "b" => Some "008"
  | "t" => Some "009" | "n" => Some "010" | "v" => Some "011"
  | "f" => Some "012" | "r" => Some "013" | "e" => Some "027"
  | " " => Some " " | "/" => Some "/" | "N" => Some "133" | "_" => Some "160"
  | _ => if decide (c = DQ) then Some DQ
         else if decide (c = BS) then Some BS else None
  end%char.

(** The text after the opening quote of a double-quoted scalar. *)
Fixpoint load_double (s : string) : option string :=
  match s with
  | "" => None
  | String c rest =>
      if decide (c = DQ) then
        match rest with "" => Some "" | _ => None end
      else if decide (c = BS) then
        match rest with
        | String "x" (String h (String l rest')) =>
            hi ← hex_value h; lo ← hex_value l;
            String (ascii_of_N (16 * hi + lo)) <$> load_double rest'
        | String e rest' =>
            a ← unescape e; String a <$> load_double rest'
        | "" => None
        end
      else String c <$> load_double rest
  end.

(** The text after the opening quote of a single-quoted scalar. *)
Fixpoint load_single (s : string) : option string :=
  match s with
  | "" => None
  | String "'" "" => Some ""
  | String "'" (String "'" rest) => String "'" <$> load_single rest
  | String "'" _ => None
  | String c rest => String c <$> load_single rest
  end.

Fixpoint remove_underscores (s : string) : string :=
  match s with
  | "" => ""
  | String "_" s' => remove_underscores s'
  | String c s' => String c (remove_underscores s')
  end.

(** The decimal case of the resolver's [int] pattern: an optional sign,
    then either a lone zero or a digit from 1 to 9 followed by digits and
    underscores. *)
Definition decimal_int (s : string) : option Z :=
  let body := match s with
              | String "-" t | String "+" t => t
              | _ => s
              end in
  let digits := remove_underscores body in
  let ok := match body with
            | "0" => true
            | String c t => mem c "123456789" && all_chars (λ a, mem a "0123456789_") t
            | "" => false
            end in
  if ok then
    n ← int_digits false 0 digits;
    Some (match s with String "-" _ => (- n)%Z | _ => n end)
  else None.

(** A plain scalar, resolved. *)
Definition load_plain (s : string) : option yval :=
  if bool_decide (s ∈ null_words) then Some YNull
  else if bool_decide (s ∈ true_words) then Some (YBool true)
  else if bool_decide (s ∈ bool_words) then Some (YBool false)
  else if bool_decide (s ∈ inf_words) then Some (YFloat (S754_infinity false))
  else if bool_decide (s ∈ neg_inf_words) then
    Some (YFloat (S754_infinity true))
  else if bool_decide (s ∈ nan_words) then Some (YFloat S754_nan)
  else match decimal_int s with
       | Some n => Some (YInt n)
       | None => if plain_ok s then Some (YStr s) else None
       end.

(** A scalar with the spaces around it removed; a comment ends a plain
    scalar. *)
Definition load_scalar (text : string) : option yval :=
  match strip_spaces text with
  | "" => Some YNull
  | String c rest as s =>
      if decide (c = DQ) then YStr <$> load_double rest
      else if decide (c = "'"%char) then YStr <$> load_single rest
      else if decide (c = "#"%char) then Some YNull
      else match find_sep " #" s with
           | Some (before, _) => load_plain (strip_spaces before)
           | None => load_plain s
           end
  end.

(** An inline value: a flow list of scalars, an empty flow dict, or a
    scalar. *)
Definition load_inline (text : string) : option yval :=
  match strip_spaces text with
  | "[]" => Some (YSeq [])
  | "{}" => Some (YMap [])
  | String "[" rest =>
      match String.rev rest with
      | String "]" inner =>
          YSeq <$> mapM load_scalar
                     (split "," (String.length inner) (String.rev inner))
      | _ => None
      end
  | s => load_scalar s
  end.

(** [d[key] = v] on the items of a dict. *)
Fixpoint dict_set (key : string) (v : yval) (d : list (string * yval))
  : list (string * yval) :=
  match d with
  | [] => [(key, v)]
  | (k, x) :: d' =>
      if decide (k = key) then (k, v) :: d' else (k, x) :: dict_set key v d'
  end.

(** A [key: value] line, split at the first [": "] or at a final [":"]. *)
Definition split_key (line : string) : option (string * string) :=
  match find_sep ": " line with
  | Some kv => Some kv
  | None =>
      match String.rev line with
      | String ":" k => Some (String.rev k, "")
      | _ => None
      end
  end.

Definition item_text (line : string) : option string :=
  match lstrip_spaces line with
  | "-" => Some ""
  | String "-" (String " " t) => Some t
  | _ => None
  end.

(** The content lines from the last to the first: the items met since the
    last key line, and the entries in document order. *)
Fixpoint load_block (lines : list string)
  : option (list yval * list (string * yval)) :=
  match lines with
  | [] => Some ([], [])
  | line :: rest =>
      '(items, entries) ← load_block rest;
      match item_text line with
      | Some t => x ← load_scalar t; Some (x :: items, entries)
      | None =>
          '(k, v) ← split_key line;
          key ← (if startswith " " k then None else load_scalar k);
          match key with
          | YStr key =>
              match strip_spaces v, items with
              | "", [] => Some ([], (key, YNull) :: entries)
              | "", _ => Some ([], (key, YSeq items) :: entries)
              | _, [] => x ← load_inline v; Some ([], (key, x) :: entries)
              | _, _ => None
              end
          | _ => None
          end
      end
  end.

Definition is_content (line : string) : bool :=
  match lstrip line with
  | "" => false
  | String "#" _ => false
  | _ => true
  end.

(** [yaml.safe_load(text)], [None] for a raised [yaml.YAMLError]. *)
Definition safe_load (text : string) : option yval :=
  let lines := filter (λ l, is_content l = true)
                      (split nl (String.length text) text) in
  match lines with
  | [] => Some YNull
  | _ =>
      match load_block lines with
      | Some ([], entries) =>
          Some (YMap (foldl (λ d e, dict_set e.1 e.2 d) [] entries))
      | Some (items, []) => Some (YSeq items)
      | Some _ => None
      | None =>
          match lines with
          | [line] => load_scalar line
          | _ => None
          end
      end
  end.

End PyYamlModel.

#[global] Instance PyYaml : YamlLib.
Proof.
  refine {| yaml_dump := PyYamlModel.dump;
            yaml_safe_load text :=
              match PyYamlModel.safe_load text with
              | Some v => Ok v
              | None => Raise YAMLError
              end |}.
  intros text e. by destruct (PyYamlModel.safe_load text); intros [= <-].
Defined.

(** ** Notions the properties are stated with *)

(** The integer that the twelve digits of [strftime] spell. *)
Definition stamp_of (t : datetime) : Z :=
  (((((year t `mod` 100) * 100 + month t) * 100 + day t) * 100
    + hour t) * 100 + minute t) * 100 + second t.

(** A string of decimal digits and the number it spells after [acc]. *)
Definition digits_string (ds : list Z) : string :=
  foldr (λ d s, String (digit_char d) s) "" ds.

Definition digits_value (acc : Z) (ds : list Z) : Z :=
  foldl (λ a d, 10 * a + d)%Z acc ds.

(** Lexicographic order on equally long lists of fields. *)
Fixpoint lex_lt (a b : list Z) : Prop :=
  match a, b with
  | x :: a', y :: b' => (x < y)%Z ∨ (x = y ∧ lex_lt a' b')
  | _, _ => False
  end.

Definition clock_second (t : datetime) : list Z :=
  [year t; month t; day t; hour t; minute t; second t].

Definition clock_instant (t : datetime) : list Z :=
  clock_second t ++ [microsecond t].

(** [t'] is a strictly later instant than [t]. *)
Definition later (t t' : datetime) : Prop :=
  lex_lt (clock_instant t) (clock_instant t').

(** The clock did not run backwards between [t] and [t']. *)
Definition not_before (t t' : datetime) : Prop :=
  later t t' ∨ clock_instant t = clock_instant t'.

(** [t'] lies in a later second of the clock than [t]. *)
Definition later_second (t t' : datetime) : Prop :=
  lex_lt (clock_second t) (clock_second t').

(** Both instants have the same first two digits of the year. *)
Definition same_century (t t' : datetime) : Prop :=
  (year t `div` 100 = year t' `div` 100)%Z.

(** Every entry lies in a directory, up to the root. *)
Definition well_formed (fs : filesystem) : Prop :=
  fs !! [] = Some Dir
  ∧ map_Forall (λ p _, p = [] ∨ fs !! dirname p = Some Dir) fs.

(** The file names [load_all_ideas] reads: the entries of the directory
    whose name ends in [.md]. *)
Definition md_names (names : list string) : list string :=
  filter (λ n, endswith ".md" n = true) names.

Section Notions.
Context {Y : YamlLib}.

(** The record that a later [load] finds after an operation that returned
    [(b, fs')]. *)
Definition then_load {A} (self : IdeaManager) (idea_id : Z)
    (r : result (A * filesystem)) : result (option Idea) :=
  '(_, fs') ← r; load_idea_by_id self fs' idea_id.

(** A record is storable when the metadata block written for it, as it is
    read back, holds no [---] and is loaded by the library as a dict with
    the four values that were dumped. *)
Definition storable (r : Idea) : Prop :=
  let block := universal_newlines (strip (yaml_dump (metadata_of r))) in
  find_sep "---" block = None
  ∧ ∃ d, yaml_safe_load (nl +:+ block +:+ nl) = Ok (YMap d)
         ∧ dict_get "id" d = Some (YInt (id r))
         ∧ dict_get "title" d = Some (title r)
         ∧ dict_get "modified" d = Some (YInt (modified r))
         ∧ dict_get "tags" d = Some (tags r).

(** The values that [int] refuses, each with the exception it raises: a
    string or a byte string that spells no integer and a NaN raise
    [ValueError], an infinity raises [OverflowError], and [None], a date, a
    list, a tuple, a set and a dict raise [TypeError]. *)
Inductive int_refuses : yval → exn → Prop :=
  | refuses_str s : int_of_str s = None → int_refuses (YStr s) ValueError
  | refuses_bytes b :
      int_of_bytes b = None → int_refuses (YBytes b) ValueError
  | refuses_nan : int_refuses (YFloat S754_nan) ValueError
  | refuses_infinity s : int_refuses (YFloat (S754_infinity s)) OverflowError
  | refuses_None : int_refuses YNull TypeError
  | refuses_timestamp t : int_refuses (YTimestamp t) TypeError
  | refuses_list l : int_refuses (YSeq l) TypeError
  | refuses_tuple l : int_refuses (YTuple l) TypeError
  | refuses_set l : int_refuses (YSet l) TypeError
  | refuses_dict d : int_refuses (YMap d) TypeError.

(** The ways a file text can be malformed, in the order in which
    [from_markdown_text] meets them, each with the exception it is answered
    with: fewer than two [---] markers; a metadata block on which the
    library raises; one that is not a mapping; a mapping without [id]; an
    [id] that [int] refuses; then, the [id] being accepted, a mapping
    without [title]; without [modified]; a [modified] that [int]
    refuses. *)
Inductive malformed : string → exn → Prop :=
  | malformed_markers text :
      length (split "---" 2 text) < 3 →
      malformed text ValueError
  | malformed_yaml text before metadata body e :
      split "---" 2 text = [before; metadata; body] →
      yaml_safe_load metadata = Raise e →
      malformed text e
  | malformed_not_mapping text before metadata body v :
      split "---" 2 text = [before; metadata; body] →
      yaml_safe_load metadata = Ok v →
      (∀ d, v ≠ YMap d) →
      malformed text TypeError
  | malformed_no_id text before metadata body d :
      split "---" 2 text = [before; metadata; body] →
      yaml_safe_load metadata = Ok (YMap d) →
      dict_get "id" d = None →
      malformed text KeyError
  | malformed_bad_id text before metadata body d x e :
      split "---" 2 text = [before; metadata; body] →
      yaml_safe_load metadata = Ok (YMap d) →
      dict_get "id" d = Some x →
      int_refuses x e →
      malformed text e
  | malformed_no_title text before metadata body d x i :
      split "---" 2 text = [before; metadata; body] →
      yaml_safe_load metadata = Ok (YMap d) →
      dict_get "id" d = Some x → py_int x = Ok i →
      dict_get "title" d = None →
      malformed text KeyError
  | malformed_no_modified text before metadata body d x i t :
      split "---" 2 text = [before; metadata; body] →
      yaml_safe_load metadata = Ok (YMap d) →
      dict_get "id" d = Some x → py_int x = Ok i →
      dict_get "title" d = Some t →
      dict_get "modified" d = None →
      malformed text KeyError
  | malformed_bad_modified text before metadata body d x i t y e :
      split "---" 2 text = [before; metadata; body] →
      yaml_safe_load metadata = Ok (YMap d) →
      dict_get "id" d = Some x → py_int x = Ok i →
      dict_get "title" d = Some t →
      dict_get "modified" d = Some y →
      int_refuses y e →
      malformed text e.

(** The file systems the store itself produces for one idea:
    [history self t0 idea_id t fs] holds when [fs] is the file system after
    a [create_new_idea] at the instant [t0] that returned the id [idea_id],
    followed by successful [update_idea] calls on this id, the last at [t],
    the clock never running backwards and staying in the century of [t0].
    Every update finds under the id a record that carries this id. *)
Inductive history (self : IdeaManager) (t0 : datetime) (idea_id : Z)
  : datetime → filesystem → Prop :=
  | history_create title tags content fs r fs' :
      valid_datetime t0 →
      create_new_idea self t0 title tags content fs = Ok (r, fs') →
      id r = idea_id →
      history self t0 idea_id t0 fs'
  | history_update t fs now title tags content loaded fs' :
      history self t0 idea_id t fs →
      valid_datetime now → not_before t now → same_century t0 now →
      load_idea_by_id self fs idea_id = Ok (Some loaded) →
      id loaded = idea_id →
      update_idea self now idea_id title tags content fs = Ok (true, fs') →
      history self t0 idea_id now fs'.

End Notions.

(** ** Concrete stores and instants for the examples *)

Definition notes : IdeaManager := mkIdeaManager ["notes"].

(** A store directory without ideas. *)
Definition empty_notes : filesystem := {[ [] := Dir; ["notes"] := Dir ]}.

Definition ten_o_clock : datetime := mkDatetime 2026 11 4 10 0 0 0.
Definition half_a_second_later : datetime := mkDatetime 2026 11 4 10 0 0 500000.
Definition one_second_later : datetime := mkDatetime 2026 11 4 10 0 1 0.
Definition last_second_of_2099 : datetime := mkDatetime 2099 12 31 23 59 59 0.
Definition first_second_of_2100 : datetime := mkDatetime 2100 1 1 0 0 0 0.

(** The store after [create_new_idea("T", ["a"], "C")] at ten o'clock. *)
Definition notes_with_T : filesystem :=
  match create_new_idea notes ten_o_clock "T" ["a"] "C" empty_notes with
  | Ok (_, fs) => fs
  | Raise _ => empty_notes
  end.

(** The store after a further [update_idea(id, title="New")] one second
    later. *)
Definition notes_with_New : filesystem :=
  match update_idea notes one_second_later 261104100000 (Some "New") None
                    None notes_with_T with
  | Ok (_, fs) => fs
  | Raise _ => notes_with_T
  end.

(** The store after [create_new_idea("T", ["a"], "C")] in the last second
    of 2099. *)
Definition notes_of_2099 : filesystem :=
  match create_new_idea notes last_second_of_2099 "T" ["a"] "C" empty_notes
  with
  | Ok (_, fs) => fs
  | Raise _ => empty_notes
  end.

(** A record whose title holds the delimiter of the file format. *)
Definition dashed : Idea := mkIdea 1 (YStr "a---b") 1 (str_list []) "C".

(** A file text whose metadata block has no [id]. *)
Definition text_without_id : string :=
  "---" +:+ nl +:+ "title: T" +:+ nl +:+ "modified: 1" +:+ nl +:+ "---"
  +:+ nl +:+ nl +:+ "C".

(** A file text whose [id] is an infinite float. *)
Definition text_with_infinite_id : string :=
  "---" +:+ nl +:+ "id: .inf" +:+ nl +:+ "title: T" +:+ nl
  +:+ "modified: 1" +:+ nl +:+ "---" +:+ nl +:+ nl +:+ "C".

(** A file text with a non-integer [id] and no [title]. *)
Definition text_with_bad_id_and_no_title : string :=
  "---" +:+ nl +:+ "id: abc" +:+ nl +:+ "modified: 1" +:+ nl +:+ "---"
  +:+ nl +:+ nl +:+ "C".

(** A path taken by a regular file. *)
Definition notes_is_a_file : filesystem :=
  {[ [] := Dir; ["notes"] := File "x" ]}.


(** A store directory whose file [idea5.md] holds a record with id 7. *)
Definition notes_misfiled : filesystem :=
  <[ ["notes"; "idea5.md"] :=
       File (to_markdown (mkIdea 7 (YStr "T") 7 (str_list []) "C")) ]>
    empty_notes.

(** The store with the idea T and a markdown file without markers. *)
Definition notes_with_bad_file : filesystem :=
  <[ ["notes"; "bad.md"] := File "no markers here" ]> notes_with_T.

(** A store directory that holds a text file and a directory, and no
    markdown file. *)
Definition notes_without_md : filesystem :=
  <[ ["notes"; "todo.txt"] := File "x" ]>
    (<[ ["notes"; "old"] := Dir ]> empty_notes).

(** A record whose content has whitespace around it. *)
Definition padded : Idea := mkIdea 7 (YStr "T") 7 (str_list []) "  C  ".

(** The root after the constructor made [home/notes]. *)
Definition home_notes_made : filesystem :=
  match IdeaManager_init ["home"; "notes"] {[ [] := Dir ]} with
  | Ok (_, fs) => fs
  | Raise _ => ∅
  end.

(** ** [itrk/__init__.py] *)

(** The values that the names of [process_arguments] hold; a module or a
    function is an object known by its name. *)
Inductive pyval :=
  | PNone
  | PInt (n : Z)
  | PStr (s : string)
  | PBool (b : bool)
  | PObject (name : string).

(** How the body of a function ends: it returns a value, a [NameError] for
    the name that was read leaves it, or another exception does (no handler
    of the body catches either). *)
Inductive outcome (A : Type) :=
  | Returns (a : A)
  | NameError (name : string)
  | Raises (e : exn).
Arguments Returns {A} a.
Arguments NameError {A} name.
Arguments Raises {A} e.

(** [posixpath.join(a, b)] *)
Definition os_path_join (a b : string) : string :=
  if startswith "/" b then b
  else if bool_decide (a = "") || endswith "/" a then a +:+ b
  else a +:+ "/" +:+ b.

(** Reading a name: the first binding of the scope, [NameError] without
    one. *)
Fixpoint read_name (scope : list (string * pyval)) (name : string)
  : outcome pyval :=
  match scope with
  | [] => NameError name
  | (n, v) :: scope' =>
      if decide (n = name) then Returns v else read_name scope' name
  end.

(** A tuple display: the names are read from left to right. *)
Fixpoint read_names (scope : list (string * pyval)) (names : list string)
  : outcome (list pyval) :=
  match names with
  | [] => Returns []
  | name :: rest =>
      match read_name scope name with
      | Returns v =>
          match read_names scope rest with
          | Returns vs => Returns (v :: vs)
          | NameError n => NameError n
          | Raises e => Raises e
          end
      | NameError n => NameError n
      | Raises e => Raises e
      end
  end.

(** The globals of the module when [process_arguments] is called: the two
    imports and the function itself.  (The builtins come after them; none
    of the names the function reads is a builtin.) *)
Definition module_globals : list (string * pyval) :=
  [ ("os", PObject "os"); ("sys", PObject "sys");
    ("process_arguments", PObject "process_arguments") ].

(** [process_arguments()], with [sys.argv], [os.environ] and the working
    directory as arguments ([None] when it is gone: [os.getcwd()] then
    raises [FileNotFoundError]); it gives how the call ends and [sys.argv]
    as the call leaves it. *)
Definition process_arguments (argv : list string)
    (environ : gmap string string) (cwd : option string)
  : outcome (list pyval) * list string :=
  let backup_count := 7%Z in
  let log_level := 20%Z in
  let '(log_level, argv) :=
    if bool_decide (1 < length argv) then
      match int_of_str (default "" (argv !! 1)) with
      | Some n => (n, delete 1 argv)
      | None => (log_level, argv)
      end
    else (log_level, argv) in
  let envhome := environ !! "ITRKHOME" in
  let home :=
    if bool_decide (1 < length argv) then Some (default "" (argv !! 1))
    else if truthy envhome then envhome
    else cwd in
  match home with
  | None => (Raises FileNotFoundError, argv)
  | Some itrk_home =>
      let backup_dir := os_path_join itrk_home "backup" in
      let md_path := os_path_join itrk_home "notes" in
      let restore :=
        bool_decide (2 < length argv)
        && bool_decide (argv !! 2 = Some "restore") in
      let locals :=
        [ ("backup_count", PInt backup_count); ("log_level", PInt log_level);
          ("envhome", from_option PStr PNone envhome);
          ("itrk_home", PStr itrk_home); ("backup_dir", PStr backup_dir);
          ("md_path", PStr md_path); ("restore", PBool restore) ] in
      (read_names (locals ++ module_globals)
         ["trf_home"; "log_level"; "restore"; "backup_dir"; "db_path"],
       argv)
  end.

(** The body of the module: the two imports, the [def], and the call whose
    result is unpacked into five names of the module; it gives the names
    that the module binds, and [sys.argv] as the import leaves it. *)
Definition itrk_module (argv : list string)
    (environ : gmap string string) (cwd : option string)
  : outcome (list (string * pyval)) * list string :=
  match process_arguments argv environ cwd with
  | (Returns [a; b; c; d; e], argv) =>
      (Returns ([ ("itrk_home", a); ("log_level", b); ("restore", c);
                  ("backup_dir", d); ("md_path", e) ] ++ module_globals),
       argv)
  | (Returns _, argv) => (Raises ValueError, argv)
  | (NameError name, argv) => (NameError name, argv)
  | (Raises e, argv) => (Raises e, argv)
  end.

(** * Properties *)

(** ** Strings *)

Section StringFacts.

Lemma str_app_cons a s t : String a s +:+ t = String a (s +:+ t).
Proof. reflexivity. Qed.

Lemma str_app_nil_r s : s +:+ "" = s.
Proof. induction s as [|a s IH]; [done|]. by rewrite str_app_cons, IH. Qed.


Lemma str_length_app s t :
  String.length (s +:+ t) = String.length s + String.length t.
Proof. induction s as [|a s IH]; [done|]. rewrite str_app_cons. simpl. lia. Qed.

Lemma startswith_app p s : startswith p (p +:+ s) = true.
Proof.
  induction p as [|a p IH]; [done|].
  rewrite str_app_cons. simpl. by rewrite decide_True.
Qed.

Lemma drop_app p s : drop (String.length p) (p +:+ s) = s.
Proof. induction p as [|a p IH]; [by destruct s|]. by rewrite str_app_cons. Qed.

(** A separator that does not start inside [s] does not start inside [s]
    followed by a character foreign to it either. *)
Lemma startswith_app_foreign sep s c rest :
  mem c sep = false →
  startswith sep s = false →
  startswith sep (s +:+ String c rest) = false.
Proof.
  revert s. induction sep as [|a sep IH]; intros s Hc Hs; [by destruct s|].
  simpl in Hc. destruct (decide (a = c)) as [|Hac]; [done|].
  destruct s as [|b s]; simpl in *.
  - by rewrite decide_False.
  - destruct (decide (a = b)); [|done]. auto.
Qed.

Lemma startswith_foreign sep c rest :
  sep ≠ "" → mem c sep = false → startswith sep (String c rest) = false.
Proof.
  intros Hne Hc. apply (startswith_app_foreign sep "" c rest Hc).
  by destruct sep.
Qed.

(** [find_sep] steps over a text without the separator that ends in a
    character foreign to the separator. *)
Lemma find_sep_skip sep s c rest :
  sep ≠ "" → mem c sep = false →
  find_sep sep s = None →
  find_sep sep (s +:+ String c rest)
  = match find_sep sep rest with
    | Some (a, b) => Some (s +:+ String c a, b)
    | None => None
    end.
Proof.
  intros Hne Hc. induction s as [|x s IH]; intros Hs.
  - change ("" +:+ String c rest) with (String c rest).
    simpl. rewrite (startswith_foreign sep c rest Hne Hc).
    by destruct (find_sep sep rest) as [[a b]|].
  - rewrite str_app_cons. simpl in Hs. simpl.
    destruct (startswith sep (String x s)) eqn:Hst; [done|].
    change (String x (s +:+ String c rest))
      with (String x s +:+ String c rest).
    rewrite (startswith_app_foreign sep _ c rest Hc Hst).
    destruct (find_sep sep s) as [[a b]|] eqn:Hf; [done|].
    rewrite IH by done.
    by destruct (find_sep sep rest) as [[a b]|].
Qed.

Lemma find_sep_here sep s : find_sep sep (sep +:+ s) = Some ("", s).
Proof.
  destruct (sep +:+ s) eqn:E; simpl; rewrite <-E, startswith_app, drop_app;
    done.
Qed.

Lemma strip_two_newlines s : strip (nl +:+ nl +:+ s) = strip s.
Proof. reflexivity. Qed.

(** A text without whitespace is its own [strip]. *)
Lemma rstrip_no_space s :
  all_chars (λ c, negb (isspace c)) s = true → rstrip s = s.
Proof.
  induction s as [|c s IH]; [done|]. simpl.
  intros [Hc Hs]%andb_prop. rewrite (IH Hs).
  destruct s; [|done]. by destruct (isspace c).
Qed.

Lemma strip_no_space s :
  all_chars (λ c, negb (isspace c)) s = true → strip s = s.
Proof.
  intros H. unfold strip.
  assert (lstrip s = s) as ->; [|by apply rstrip_no_space].
  destruct s as [|c s]; [done|]. simpl in *.
  apply andb_prop in H as [Hc _]. by destruct (isspace c).
Qed.

(** The integer parser skips nothing in a text without whitespace. *)
Lemma rstrip_with_no_space space s :
  all_chars (λ c, negb (space c)) s = true → rstrip_with space s = s.
Proof.
  induction s as [|c s IH]; [done|]. simpl.
  intros [Hc Hs]%andb_prop. rewrite (IH Hs).
  destruct s; [|done]. by destruct (space c).
Qed.

Lemma lstrip_with_no_space space s :
  all_chars (λ c, negb (space c)) s = true → lstrip_with space s = s.
Proof.
  destruct s as [|c s]; [done|]. simpl.
  intros [Hc _]%andb_prop. by destruct (space c).
Qed.

(** [int] and [str.strip] do not skip the same whitespace: U+001C before
    the digits is stripped by the one and refused by the other, while both
    skip U+00A0; in a byte string [int] skips ASCII whitespace only. *)
Example int_whitespace :
  strip (String (ascii_of_N 28) "5") = "5"
  ∧ int_of_str (String (ascii_of_N 28) "5") = None
  ∧ int_of_str (String (ascii_of_N 160) " 5 ") = Some 5%Z
  ∧ int_of_bytes (String (ascii_of_N 160) "5") = None
  ∧ int_of_bytes " 5 " = Some 5%Z.
Proof. repeat split; by vm_compute. Qed.



(** Universal newlines read a text piece by piece; only a carriage return
    at the end of a piece reaches into the next. *)
Lemma universal_newlines_from_app b s t :
  universal_newlines_from b (s +:+ t)
  = universal_newlines_from b s +:+ universal_newlines_from (ends_with_cr b s) t.
Proof.
  revert b. induction s as [|c s IH]; intros b; [done|].
  rewrite str_app_cons. simpl.
  destruct (decide (c = CR)) as [->|Hcr].
  - by rewrite IH.
  - rewrite (bool_decide_eq_false_2 _ Hcr).
    destruct (decide (c = LF)); [destruct b|]; by rewrite IH.
Qed.

(** What [strip] returns never ends in a carriage return. *)
Lemma ends_with_cr_rstrip s : ends_with_cr false (rstrip s) = false.
Proof.
  induction s as [|c s IH]; [done|]. simpl.
  destruct (rstrip s) as [|c2 t2] eqn:E.
  - destruct (isspace c) eqn:Hc; [done|]. simpl.
    apply bool_decide_eq_false_2. by intros ->.
  - simpl. simpl in IH. exact IH.
Qed.

Lemma ends_with_cr_strip s : ends_with_cr false (strip s) = false.
Proof. apply ends_with_cr_rstrip. Qed.

End StringFacts.

(** ** The clock *)

Section ClockFacts.

Lemma digit_char_facts d :
  (0 ≤ d ≤ 9)%Z →
  digit_of (digit_char d) = Some d ∧ int_space (digit_char d) = false
  ∧ digit_char d ≠ "-"%char ∧ digit_char d ≠ "+"%char.
Proof.
  intros H.
  assert (d = 0 ∨ d = 1 ∨ d = 2 ∨ d = 3 ∨ d = 4 ∨ d = 5 ∨ d = 6 ∨ d = 7
          ∨ d = 8 ∨ d = 9)%Z as Hd by lia.
  repeat destruct Hd as [->|Hd]; try subst d; by vm_compute.
Qed.

Lemma int_digits_digits b acc ds :
  Forall (λ d, 0 ≤ d ≤ 9)%Z ds → ds ≠ [] ∨ b = true →
  int_digits b acc (digits_string ds) = Some (digits_value acc ds).
Proof.
  intros Hds. revert b acc.
  induction Hds as [|d ds Hd Hds IH]; intros b acc Hne.
  - destruct Hne as [?| ->]; done.
  - simpl. destruct (digit_char_facts d Hd) as (-> & _). apply IH. by right.
Qed.

Lemma int_of_str_digits ds :
  Forall (λ d, 0 ≤ d ≤ 9)%Z ds → ds ≠ [] →
  int_of_str (digits_string ds) = Some (digits_value 0 ds).
Proof.
  intros Hds Hne. unfold int_of_str, int_of_text.
  assert (all_chars (λ c, negb (int_space c)) (digits_string ds) = true)
    as Hall.
  { clear Hne. induction Hds as [|d ds Hd Hds IH]; [done|]. simpl.
    destruct (digit_char_facts d Hd) as (_ & -> & _). done. }
  rewrite lstrip_with_no_space, rstrip_with_no_space by done.
  - destruct Hds as [|d ds Hd Hds]; [done|].
    pose proof (int_digits_digits false 0 (d :: ds)) as Hi.
    destruct (digit_char_facts d Hd) as (_ & _ & Hm & Hp).
    change (digits_string (d :: ds))
      with (String (digit_char d) (digits_string ds)) in *.
    destruct (digit_char d) as [[] [] [] [] [] [] [] []];
      try (by apply Hi; [constructor|left]); done.
Qed.

Lemma strftime_digits t :
  strftime t
  = digits_string
      [ (year t `mod` 100) `div` 10; (year t `mod` 100) `mod` 10;
        month t `div` 10; month t `mod` 10; day t `div` 10; day t `mod` 10;
        hour t `div` 10; hour t `mod` 10;
        minute t `div` 10; minute t `mod` 10;
        second t `div` 10; second t `mod` 10 ]%Z.
Proof. reflexivity. Qed.

(** For a valid instant the clock yields the twelve-digit stamp. *)
Lemma generate_timestamp_valid t :
  valid_datetime t → generate_timestamp t = Ok (stamp_of t).
Proof.
  intros (Hy & Hm & Hd & Hh & Hmi & Hs & _).
  unfold generate_timestamp. rewrite strftime_digits, int_of_str_digits.
  - f_equal. unfold digits_value, stamp_of. simpl.
    pose proof (Z.div_mod (year t `mod` 100) 10).
    pose proof (Z.div_mod (month t) 10). pose proof (Z.div_mod (day t) 10).
    pose proof (Z.div_mod (hour t) 10). pose proof (Z.div_mod (minute t) 10).
    pose proof (Z.div_mod (second t) 10). lia.
  - repeat (apply Forall_cons; split); try apply Forall_nil;
      Z.div_mod_to_equations; lia.
  - done.
Qed.

(** Within one century the stamp grows with the second of the clock. *)
Lemma stamp_of_later_second t t' :
  valid_datetime t → valid_datetime t' → same_century t t' →
  later_second t t' → (stamp_of t < stamp_of t')%Z.
Proof.
  intros (Hy & Hm & Hd & Hh & Hmi & Hs & _)
         (Hy' & Hm' & Hd' & Hh' & Hmi' & Hs' & _) Hc Hl.
  unfold same_century in Hc. unfold later_second, clock_second in Hl.
  simpl in Hl. unfold stamp_of.
  pose proof (Z.div_mod (year t) 100). pose proof (Z.div_mod (year t') 100).
  pose proof (Z.mod_pos_bound (year t) 100).
  pose proof (Z.mod_pos_bound (year t') 100).
  lia.
Qed.

(** Within one century the stamp never decreases while the clock does not
    run backwards. *)
Lemma stamp_of_not_before t t' :
  valid_datetime t → valid_datetime t' → same_century t t' →
  not_before t t' → (stamp_of t ≤ stamp_of t')%Z.
Proof.
  intros (Hy & Hm & Hd & Hh & Hmi & Hs & _)
         (Hy' & Hm' & Hd' & Hh' & Hmi' & Hs' & _) Hc Hl.
  unfold same_century in Hc.
  unfold not_before, later, clock_instant, clock_second in Hl.
  unfold stamp_of.
  pose proof (Z.div_mod (year t) 100). pose proof (Z.div_mod (year t') 100).
  pose proof (Z.mod_pos_bound (year t) 100).
  pose proof (Z.mod_pos_bound (year t') 100).
  destruct Hl as [Hl|Hl]; simpl in Hl; [lia|].
  injection Hl as -> -> -> -> -> ->. lia.
Qed.

End ClockFacts.

(** ** The file system *)

Section FileSystemFacts.

Lemma child_name_spec d p n : child_name d p = Some n ↔ p = d ++ [n].
Proof.
  revert p. induction d as [|x d IH]; intros p.
  - destruct p as [|y [|z p]]; simpl; split; intros H; by simplify_eq.
  - destruct p as [|y p]; simpl; [split; intros H; by simplify_eq|].
    destruct (decide (x = y)) as [->|]; [|split; intros H; by simplify_eq].
    rewrite IH. split; intros H; by simplify_eq.
Qed.

Lemma NoDup_omap_inj {A B} (f : A → option B) (l : list A) :
  NoDup l →
  (∀ x y z, x ∈ l → y ∈ l → f x = Some z → f y = Some z → x = y) →
  NoDup (omap f l).
Proof.
  induction 1 as [|x l Hx Hl IH]; intros Hinj; [constructor|].
  simpl. destruct (f x) as [z|] eqn:Hfx.
  - constructor.
    + rewrite list_elem_of_omap. intros (y & Hy & Hfy).
      assert (x = y) as <- by (eapply Hinj; eauto; set_solver). done.
    + apply IH. intros ?????. apply Hinj; set_solver.
  - apply IH. intros ?????. apply Hinj; set_solver.
Qed.

(** The listing of a directory names its entries, each once. *)
Lemma os_listdir_spec (fs : gmap (list string) node) d :
  fs !! d = Some Dir →
  ∃ names, os_listdir fs d = Ok names ∧ NoDup names
           ∧ ∀ n, n ∈ names ↔ is_Some (fs !! (d ++ [n])).
Proof.
  intros Hd. unfold os_listdir. rewrite Hd. eexists. split; [done|]. split.
  - apply NoDup_omap_inj; [apply NoDup_map_to_list|].
    intros [p1 v1] [p2 v2] n H1 H2 Hn1%child_name_spec Hn2%child_name_spec.
    simpl in *. subst.
    apply elem_of_map_to_list in H1, H2. congruence.
  - intros n. rewrite list_elem_of_omap. split.
    + intros ([p v] & Hin & Hn%child_name_spec). simpl in Hn. subst.
      apply elem_of_map_to_list in Hin. eauto.
    + intros [v Hv]. exists (d ++ [n], v). split.
      * by apply elem_of_map_to_list.
      * by apply child_name_spec.
Qed.

Lemma dirname_app d n : dirname (d ++ [n]) = d.
Proof. apply removelast_last. Qed.

(** In a well-formed file system the ancestors of an entry exist. *)
Lemma well_formed_parent (fs : gmap (list string) node) q n :
  well_formed fs → is_Some (fs !! (q ++ [n])) → fs !! q = Some Dir.
Proof.
  intros [_ Hwf] [v Hv]. destruct (Hwf _ _ Hv) as [Hnil|Hd].
  - by destruct q.
  - by rewrite dirname_app in Hd.
Qed.

Lemma well_formed_prefix (fs : gmap (list string) node) (q p : list string) :
  well_formed fs → q `prefix_of` p → is_Some (fs !! p) → is_Some (fs !! q).
Proof.
  intros Hwf [k ->]. induction k as [|x k IH] using rev_ind.
  - by rewrite app_nil_r.
  - rewrite app_assoc. intros Hs%(well_formed_parent _ _ _ Hwf).
    apply IH. eauto.
Qed.

(** [os.makedirs] on a path that does not exist and has no regular file
    among its ancestors: it succeeds, and afterwards a path is a directory
    if it is a prefix of the new path that was missing, and is what it was
    otherwise. *)
Lemma os_makedirs_rev_spec (rp : list string) (fs : gmap (list string) node) :
  well_formed fs →
  fs !! rev rp = None →
  (∀ q text, q `prefix_of` rev rp → fs !! q ≠ Some (File text)) →
  ∃ fs', os_makedirs_rev rp fs = Ok fs'
         ∧ ∀ q, fs' !! q = if decide (q `prefix_of` rev rp ∧ fs !! q = None)
                           then Some Dir else fs !! q.
Proof.
  intros Hwf. pose proof Hwf as [Hroot _].
  induction rp as [|tail rhead IH]; intros Hnone Hfiles.
  { simpl in Hnone. congruence. }
  assert (∀ q, q `prefix_of` rev (tail :: rhead) ↔
               q = rev (tail :: rhead) ∨ q `prefix_of` rev rhead) as Hpre.
  { intros q. simpl. split.
    - intros [k Hk]. destruct (decide (k = [])) as [->|Hne].
      + left. by rewrite app_nil_r in Hk.
      + right. destruct (exists_last Hne) as (k' & x & ->).
        rewrite app_assoc in Hk. apply app_inj_tail in Hk as [-> _].
        by eexists.
    - intros [->|[k ->]]; [done|]. rewrite <-app_assoc. by eexists. }
  assert (¬ rev (tail :: rhead) `prefix_of` rev rhead) as Hlong.
  { intros Hp%prefix_length. simpl in Hp.
    rewrite length_app, !length_rev in Hp. simpl in Hp. lia. }
  assert (∀ fs1 : gmap (list string) node,
            fs1 !! rev rhead = Some Dir → fs1 !! rev (tail :: rhead) = None →
            os_mkdir (rev (tail :: rhead)) fs1
            = Ok (<[rev (tail :: rhead) := Dir]> fs1)) as Hmk.
  { intros fs1 Hh Hn. unfold os_mkdir. rewrite Hn. simpl rev.
    rewrite dirname_app. by rewrite Hh. }
  assert (∀ fs1 : gmap (list string) node,
            (∀ q, fs1 !! q = if decide (q `prefix_of` rev rhead ∧ fs !! q = None)
                             then Some Dir else fs !! q) →
            ∀ q, <[rev (tail :: rhead) := Dir]> fs1 !! q
                 = if decide (q `prefix_of` rev (tail :: rhead) ∧ fs !! q = None)
                   then Some Dir else fs !! q) as Hpost.
  { intros fs1 H1 q. destruct (decide (q = rev (tail :: rhead))) as [->|Hq].
    - rewrite lookup_insert_eq, decide_True; done.
    - rewrite lookup_insert_ne, H1 by done.
      destruct (decide (q `prefix_of` rev rhead ∧ _)) as [[Hp Hqn]|Hno].
      + rewrite decide_True; [done|]. split; [|done]. apply Hpre. by right.
      + rewrite decide_False; [done|]. intros [[->|Hp]%Hpre Hqn]; [done|].
        by apply Hno. }
  destruct (fs !! rev rhead) as [v|] eqn:Hv.
  - (* the parent exists: by assumption it is a directory *)
    assert (v = Dir) as ->.
    { destruct v as [text|]; [|done].
      destruct (Hfiles (rev rhead) text); [|done]. apply Hpre. by right. }
    assert (os_makedirs_rev (tail :: rhead) fs
            = os_mkdir (rev (tail :: rhead)) fs) as ->.
    { simpl. destruct rhead; [done|]. unfold os_path_exists.
      rewrite bool_decide_eq_true_2; [done|]. by rewrite Hv. }
    rewrite (Hmk fs Hv Hnone). eexists. split; [done|].
    apply Hpost. intros q. rewrite decide_False; [done|].
    intros [Hp Hqn].
    destruct (well_formed_prefix fs q (rev rhead) Hwf Hp) as [? ?];
      [by rewrite Hv|congruence].
  - (* the parent is missing: it is made first *)
    destruct IH as (fs1 & Hrec & H1); [done|..].
    { intros q text Hp. apply Hfiles, Hpre. by right. }
    assert (os_makedirs_rev (tail :: rhead) fs
            = os_mkdir (rev (tail :: rhead)) fs1) as ->.
    { simpl. destruct rhead as [|x rhead'] eqn:E; [simpl in Hv; congruence|].
      rewrite <-E in *. unfold os_path_exists.
      rewrite bool_decide_eq_false_2; [|rewrite Hv; by intros [? ?]].
      by rewrite Hrec. }
    rewrite Hmk.
    + eexists. split; [done|]. by apply Hpost.
    + rewrite H1, decide_True; done.
    + rewrite H1, decide_False; [done|]. by intros [? _].
Qed.

End FileSystemFacts.

(** ** The store *)

Section StoreFacts.
Context {Y : YamlLib}.

Lemma load_idea_by_id_missing (self : IdeaManager) (fs : gmap (list string) node) idea_id :
  os_path_exists fs (get_idea_file_path self idea_id) = false →
  load_idea_by_id self fs idea_id = Ok None.
Proof. intros H. unfold load_idea_by_id. by rewrite H. Qed.

(** What a successful [load_idea_by_id] says about the file system. *)
Lemma load_idea_by_id_Some (self : IdeaManager) (fs : gmap (list string) node) idea_id idea :
  load_idea_by_id self fs idea_id = Ok (Some idea) →
  ∃ text, fs !! get_idea_file_path self idea_id = Some (File text)
          ∧ from_markdown_text (universal_newlines text) = Ok idea.
Proof.
  unfold load_idea_by_id, from_markdown, open_read.
  destruct (os_path_exists _ _); [|done].
  destruct (fs !! _) as [[text|]|]; [|done..].
  simpl. destruct (from_markdown_text _) eqn:E; [|done].
  intros [= ->]. eauto.
Qed.

(** Saving a record into an existing store directory, over a regular file
    or a free name, writes exactly that file. *)
Lemma save_idea_Ok (self : IdeaManager) (idea : Idea) (fs : gmap (list string) node) :
  fs !! directory self = Some Dir →
  fs !! get_idea_file_path self (id idea) ≠ Some Dir →
  save_idea self idea fs
  = Ok (<[get_idea_file_path self (id idea) := File (to_markdown idea)]> fs).
Proof.
  intros Hd Hp. unfold save_idea, open_write.
  unfold get_idea_file_path in *. rewrite dirname_app, Hd.
  by destruct (fs !! (_ ++ _)) as [[text|]|].
Qed.

(** The text of a record as [file.read()] returns it. *)
Lemma read_to_markdown (r : Idea) :
  universal_newlines (to_markdown r)
  = "---" +:+ nl
    +:+ universal_newlines (strip (yaml_dump (metadata_of r))) +:+ nl
    +:+ "---" +:+ nl +:+ nl +:+ universal_newlines (content r).
Proof.
  unfold to_markdown, universal_newlines.
  change (universal_newlines_from false ("---" +:+ nl +:+ ?x))
    with ("---" +:+ nl +:+ universal_newlines_from false x).
  by rewrite universal_newlines_from_app, ends_with_cr_strip.
Qed.

(** The two markers of a written text are found where they were put, when
    the metadata block between them holds no marker. *)
Lemma split_markers (block body : string) :
  find_sep "---" block = None →
  split "---" 2 ("---" +:+ nl +:+ block +:+ nl +:+ "---" +:+ body)
  = [""; nl +:+ block +:+ nl; body].
Proof.
  intros Hnone.
  assert (find_sep "---" (nl +:+ block +:+ nl +:+ "---" +:+ body)
          = Some (nl +:+ block +:+ nl, body)) as Hsecond.
  { change (nl +:+ block +:+ nl +:+ "---" +:+ body)
      with ("" +:+ String LF (block +:+ String LF ("---" +:+ body))).
    rewrite (find_sep_skip "---" "" LF) by done.
    rewrite (find_sep_skip "---" block LF) by done.
    by rewrite find_sep_here. }
  change (split "---" 2 ?x)
    with (match find_sep "---" x with
          | None => [x]
          | Some (a, b) => a :: split "---" 1 b
          end).
  rewrite find_sep_here.
  change (split "---" 1 ?x)
    with (match find_sep "---" x with
          | None => [x]
          | Some (a, b) => a :: split "---" 0 b
          end).
  by rewrite Hsecond.
Qed.

(** Round trip away from the defect: a storable record is read back from
    its own text with the same [id], [title], [modified] and [tags], and
    with its content as read and stripped. *)
Lemma round_trip_storable (r : Idea) :
  storable r →
  from_markdown_text (universal_newlines (to_markdown r))
  = Ok (set_content (strip (universal_newlines (content r))) r).
Proof.
  intros (Hnone & d & Hload & Hid & Htitle & Hmod & Htags).
  rewrite read_to_markdown. unfold from_markdown_text.
  rewrite split_markers by done. simpl. rewrite Hload. simpl.
  rewrite Hid, Htitle, Hmod, Htags. simpl.
  by rewrite strip_two_newlines.
Qed.

(** Create, then load, away from the defect: in an existing store
    directory, for a storable record, the load that follows the create
    returns the created record with its content stripped. *)
Lemma create_then_load_storable (self : IdeaManager)
    (fs : gmap (list string) node) (now : datetime)
    (new_title : string) (new_tags : list string) (new_content : string) :
  let r := mkIdea (stamp_of now) (YStr new_title) (stamp_of now)
                  (str_list new_tags) new_content in
  valid_datetime now →
  fs !! directory self = Some Dir →
  fs !! get_idea_file_path self (stamp_of now) ≠ Some Dir →
  storable r →
  ∃ fs', create_new_idea self now new_title new_tags new_content fs
         = Ok (r, fs')
         ∧ load_idea_by_id self fs' (id r)
           = Ok (Some (set_content
                         (strip (universal_newlines new_content)) r)).
Proof.
  intros r Hnow Hdir Hpath Hst.
  eexists. unfold create_new_idea.
  rewrite (generate_timestamp_valid now Hnow). simpl.
  fold r. rewrite (save_idea_Ok self r fs Hdir Hpath). simpl.
  split; [done|].
  unfold load_idea_by_id, os_path_exists, from_markdown, open_read.
  rewrite lookup_insert_eq. rewrite bool_decide_eq_true_2 by eauto.
  simpl. by rewrite (round_trip_storable r Hst).
Qed.

(** C5: for every id that names no file in the store, [load_idea_by_id]
    returns [None], [update_idea] returns [False] and [delete_idea] returns
    [False]; none of the three raises. *)
Theorem missing_id_is_no_error (self : IdeaManager) (fs : gmap (list string) node) idea_id
    now title tags content :
  os_path_exists fs (get_idea_file_path self idea_id) = false →
  load_idea_by_id self fs idea_id = Ok None
  ∧ (∃ fs', update_idea self now idea_id title tags content fs
            = Ok (false, fs'))
  ∧ (∃ fs', delete_idea self idea_id fs = Ok (false, fs')).
Proof.
  intros H. split; [by apply load_idea_by_id_missing|]. split.
  - exists fs. unfold update_idea. by rewrite load_idea_by_id_missing.
  - exists fs. unfold delete_idea. by rewrite H.
Qed.

(** C10: for every id that names no file in the store, [update_idea]
    returns [False] and leaves the file system as it was: no entry is
    created and every file keeps its text. *)
Theorem failed_update_writes_nothing (self : IdeaManager) (fs : gmap (list string) node)
    idea_id now title tags content :
  os_path_exists fs (get_idea_file_path self idea_id) = false →
  ∃ fs', update_idea self now idea_id title tags content fs = Ok (false, fs')
         ∧ fs' = fs
         ∧ (∀ p, fs !! p = None → fs' !! p = None)
         ∧ (∀ p text, fs !! p = Some (File text) →
                      fs' !! p = Some (File text)).
Proof.
  intros H. exists fs. unfold update_idea.
  by rewrite load_idea_by_id_missing.
Qed.

(** What a successful save says about the file system. *)
Lemma save_idea_inv (self : IdeaManager) (idea : Idea)
    (fs fs' : gmap (list string) node) :
  save_idea self idea fs = Ok fs' →
  fs' = <[get_idea_file_path self (id idea) := File (to_markdown idea)]> fs.
Proof.
  unfold save_idea, open_write.
  destruct (fs !! get_idea_file_path self (id idea)) as [[text|]|];
    try done;
    destruct (fs !! dirname _) as [[?|]|]; try done; by intros [= <-].
Qed.

Lemma updated_id (idea : Idea) title tags content stamp :
  id (updated idea title tags content stamp) = id idea.
Proof. unfold updated. by destruct (truthy title), tags, (truthy content). Qed.

(** The record that [update_idea] builds, field by field. *)
Lemma updated_fields (idea : Idea) (new_title : option string)
    (new_tags : option (list string)) (new_content : option string)
    (stamp : Z) :
  updated idea new_title new_tags new_content stamp
  = mkIdea (id idea)
           (if truthy new_title then YStr (default "" new_title)
            else title idea)
           stamp
           (from_option str_list (tags idea) new_tags)
           (if truthy new_content then default "" new_content
            else content idea).
Proof.
  unfold updated. destruct idea.
  by destruct (truthy new_title), new_tags, (truthy new_content).
Qed.

(** What a successful update does to the file system. *)
Lemma update_idea_Ok (self : IdeaManager) (fs : gmap (list string) node)
    (now : datetime) (idea_id : Z) (idea : Idea) title tags content :
  valid_datetime now →
  fs !! directory self = Some Dir →
  load_idea_by_id self fs idea_id = Ok (Some idea) →
  fs !! get_idea_file_path self (id idea) ≠ Some Dir →
  update_idea self now idea_id title tags content fs
  = Ok (true,
        <[get_idea_file_path self (id idea) :=
            File (to_markdown
                    (updated idea title tags content (stamp_of now)))]> fs).
Proof.
  intros Hnow Hdir Hload Hpath. unfold update_idea. rewrite Hload. simpl.
  rewrite (generate_timestamp_valid now Hnow). simpl.
  rewrite save_idea_Ok; rewrite ?updated_id; done.
Qed.

(** C2 (amended): for every existing record, stored under its own id in an
    existing store directory, an update at a valid instant that supplies an
    empty string for the title, or for the content, succeeds and rewrites
    the record's file, and nothing else, with the loaded title, or content:
    exactly what the same update does without that argument.  An update
    that supplies an empty list of tags is not skipped: the record it
    writes has an empty tag list. *)
Theorem empty_update_arguments (self : IdeaManager)
    (fs : gmap (list string) node) (idea_id : Z) (now : datetime)
    (idea : Idea) :
  fs !! directory self = Some Dir →
  load_idea_by_id self fs idea_id = Ok (Some idea) →
  id idea = idea_id →
  valid_datetime now →
  ∃ stamp,
    generate_timestamp now = Ok stamp
    ∧ (∀ new_tags new_content,
         update_idea self now idea_id (Some "") new_tags new_content fs
         = Ok (true,
               <[get_idea_file_path self idea_id :=
                   File (to_markdown
                           (mkIdea idea_id (title idea) stamp
                              (from_option str_list (tags idea) new_tags)
                              (if truthy new_content
                               then default "" new_content
                               else content idea)))]> fs)
         ∧ update_idea self now idea_id (Some "") new_tags new_content fs
           = update_idea self now idea_id None new_tags new_content fs)
    ∧ (∀ new_title new_tags,
         update_idea self now idea_id new_title new_tags (Some "") fs
         = Ok (true,
               <[get_idea_file_path self idea_id :=
                   File (to_markdown
                           (mkIdea idea_id
                              (if truthy new_title
                               then YStr (default "" new_title)
                               else title idea)
                              stamp
                              (from_option str_list (tags idea) new_tags)
                              (content idea)))]> fs)
         ∧ update_idea self now idea_id new_title new_tags (Some "") fs
           = update_idea self now idea_id new_title new_tags None fs)
    ∧ (∀ new_title new_content,
         update_idea self now idea_id new_title (Some []) new_content fs
         = Ok (true,
               <[get_idea_file_path self idea_id :=
                   File (to_markdown
                           (mkIdea idea_id
                              (if truthy new_title
                               then YStr (default "" new_title)
                               else title idea)
                              stamp
                              (YSeq [])
                              (if truthy new_content
                               then default "" new_content
                               else content idea)))]> fs)).
Proof.
  intros Hdir Hload Hid Hnow. exists (stamp_of now).
  split; [by apply generate_timestamp_valid|].
  destruct (load_idea_by_id_Some _ _ _ _ Hload) as (text & Hfile & _).
  assert (fs !! get_idea_file_path self (id idea) ≠ Some Dir) as Hpath
    by (by rewrite Hid, Hfile).
  split; [|split].
  - intros new_tags new_content.
    rewrite !(update_idea_Ok self fs now idea_id idea) by done.
    rewrite !updated_fields, Hid. done.
  - intros new_title new_tags.
    rewrite !(update_idea_Ok self fs now idea_id idea) by done.
    rewrite !updated_fields, Hid. done.
  - intros new_title new_content.
    rewrite (update_idea_Ok self fs now idea_id idea) by done.
    rewrite updated_fields, Hid. done.
Qed.

(** C4 (amended): for every existing record, stored under its own id and
    stamped [modified] at an instant [t], an update with a non-empty title
    at an instant in a later second of the same century succeeds and
    rewrites the record's file with the new title, a strictly greater
    [modified], and the loaded tags and content; nothing else changes. *)
Theorem update_bumps_modified (self : IdeaManager) (fs : gmap (list string) node) idea_id
    idea t now new_title :
  fs !! directory self = Some Dir →
  load_idea_by_id self fs idea_id = Ok (Some idea) →
  id idea = idea_id →
  valid_datetime t → generate_timestamp t = Ok (modified idea) →
  valid_datetime now → same_century t now → later_second t now →
  new_title ≠ "" →
  ∃ stamp,
    generate_timestamp now = Ok stamp ∧ (modified idea < stamp)%Z
    ∧ update_idea self now idea_id (Some new_title) None None fs
      = Ok (true,
            <[get_idea_file_path self idea_id :=
                File (to_markdown (mkIdea idea_id (YStr new_title) stamp
                                          (tags idea) (content idea)))]> fs).
Proof.
  intros Hdir Hload Hid Ht Hm Hnow Hc Hl Hne.
  exists (stamp_of now).
  rewrite (generate_timestamp_valid t Ht) in Hm. injection Hm as Hm.
  split; [by apply generate_timestamp_valid|]. split.
  { rewrite <-Hm. by apply stamp_of_later_second. }
  destruct (load_idea_by_id_Some _ _ _ _ Hload) as (text & Hfile & _).
  unfold update_idea. rewrite Hload. simpl.
  rewrite (generate_timestamp_valid now Hnow). simpl.
  assert (updated idea (Some new_title) None None (stamp_of now)
          = mkIdea idea_id (YStr new_title) (stamp_of now)
                   (tags idea) (content idea)) as ->.
  { unfold updated. destruct new_title; [done|]. by subst idea_id. }
  rewrite save_idea_Ok; simpl; [done|done|]. by rewrite Hfile.
Qed.

(** [int] raises exactly on the values it refuses, with the exception that
    [int_refuses] tells. *)
Lemma py_int_Raise (v : yval) (e : exn) :
  py_int v = Raise e ↔ int_refuses v e.
Proof.
  split.
  - destruct v as [| | |f|s|b|t|l|l|l|d]; simpl; try done;
      try (intros [= <-]; constructor).
    + destruct f; simpl; try done; intros [= <-]; constructor.
    + destruct (int_of_str s) eqn:E; [done|]. intros [= <-].
      by constructor.
    + destruct (int_of_bytes b) eqn:E; [done|]. intros [= <-].
      by constructor.
  - intros [s Hs|b Hb| | | | | | | |]; simpl; try done.
    + by rewrite Hs.
    + by rewrite Hb.
Qed.

Lemma int_refuses_exn (v : yval) (e : exn) :
  int_refuses v e → e = ValueError ∨ e = OverflowError ∨ e = TypeError.
Proof. intros []; auto. Qed.

(** C6 (amended): for every file text that is malformed, [from_markdown]
    raises the exception of the first step that fails, in the order the
    code takes them, and never [FormatError]: [ValueError] on fewer than
    two markers; the exception of the library when it raises on the
    metadata block; [TypeError] on a metadata block that is not a mapping;
    [KeyError] on a mapping without [id]; what [int] raises on an [id] it
    refuses ([ValueError], [OverflowError] or [TypeError]); then, the [id]
    being accepted, [KeyError] on a mapping without [title], without
    [modified], and what [int] raises on a [modified] it refuses. *)
Theorem malformed_text_raises (text : string) (e : exn) :
  malformed text e →
  from_markdown_text text = Raise e ∧ e ≠ FormatError.
Proof.
  intros H. unfold from_markdown_text.
  destruct H as
    [ text Hlen
    | text before metadata body e Hs Hy
    | text before metadata body v Hs Hy Hv
    | text before metadata body d Hs Hy Hid
    | text before metadata body d x e Hs Hy Hid Hint
    | text before metadata body d x i Hs Hy Hid Hint Ht
    | text before metadata body d x i t Hs Hy Hid Hint Ht Hm
    | text before metadata body d x i t y e Hs Hy Hid Hint Ht Hm Hint' ];
    try (rewrite Hs; simpl; rewrite Hy; simpl).
  - split; [|done].
    destruct (split "---" 2 text) as [|a [|b [|c l]]]; simpl in *;
      [done..|lia].
  - split; [done|]. by destruct (yaml_safe_load_raises _ _ Hy).
  - split; [|done]. destruct v; try done. by destruct (Hv d).
  - by rewrite Hid.
  - rewrite Hid. simpl.
    rewrite (proj2 (py_int_Raise x e) Hint). split; [done|].
    by destruct (int_refuses_exn _ _ Hint) as [-> | [-> | ->]].
  - rewrite Hid. simpl. rewrite Hint. simpl. by rewrite Ht.
  - rewrite Hid. simpl. rewrite Hint. simpl. rewrite Ht. simpl.
    by rewrite Hm.
  - rewrite Hid. simpl. rewrite Hint. simpl. rewrite Ht. simpl.
    rewrite Hm. simpl.
    rewrite (proj2 (py_int_Raise y e) Hint'). split; [done|].
    by destruct (int_refuses_exn _ _ Hint') as [-> | [-> | ->]].
Qed.

(** The loop of [load_all_ideas] returns a list exactly when every listed
    [.md] file parses, and then it is the list of their records in
    order. *)
Lemma load_each_spec (self : IdeaManager) (fs : gmap (list string) node)
    (names : list string) (ideas : list Idea) :
  load_each self fs names = Ok ideas
  ↔ Forall2 (λ n idea, from_markdown fs (directory self ++ [n]) = Ok idea)
            (md_names names) ideas.
Proof.
  unfold md_names. revert ideas.
  induction names as [|n names IH]; intros ideas; simpl.
  - split; [intros [= <-]; constructor|by intros ->%Forall2_nil_inv_l].
  - destruct (endswith ".md" n) eqn:Hn.
    + rewrite filter_cons_True by done.
      destruct (from_markdown fs (directory self ++ [n])) as [idea|e]
        eqn:Hfm; simpl.
      * destruct (load_each self fs names) as [rest|e'] eqn:Hrest; simpl.
        -- split.
           ++ intros [= <-]. constructor; [done|]. by apply IH.
           ++ intros (i & r & Hi & Hr%IH & ->)%Forall2_cons_inv_l.
              congruence.
        -- split; [done|].
           intros (i & r & _ & Hr%IH & _)%Forall2_cons_inv_l. done.
      * split; [done|].
        intros (i & r & Hi & _)%Forall2_cons_inv_l. congruence.
    + rewrite filter_cons_False by (by rewrite Hn). apply IH.
Qed.


(** What a history knows about the file of its idea: it holds the text of
    a record with the id of the create and the stamp of the last call. *)
Lemma history_file (self : IdeaManager) (fs : gmap (list string) node)
    (t0 t : datetime) (idea_id : Z) :
  history self t0 idea_id t fs →
  valid_datetime t0 ∧ valid_datetime t ∧ same_century t0 t
  ∧ (stamp_of t0 ≤ stamp_of t)%Z
  ∧ ∃ r, fs !! get_idea_file_path self idea_id = Some (File (to_markdown r))
         ∧ id r = idea_id ∧ id r = stamp_of t0 ∧ modified r = stamp_of t.
Proof.
  induction 1 as
    [ title tags content fs r fs' Hv Hc Hid
    | t fs now title tags content loaded fs'
        Hh (Hv0 & Hvt & Hct & Hle & r & Hfile & Hrid & Hr0 & Hmod)
        Hv Hnb Hsc Hload Hlid Hup ].
  - unfold create_new_idea in Hc.
    rewrite (generate_timestamp_valid _ Hv) in Hc. simpl in Hc.
    destruct (save_idea _ _ _) as [fs1|] eqn:Hsave; [|done]. simpl in Hc.
    injection Hc as <- <-. apply save_idea_inv in Hsave as ->.
    simpl in Hid. subst idea_id.
    split; [done|]. split; [done|]. split; [done|]. split; [done|].
    eexists. split; [by rewrite lookup_insert_eq|]. done.
  - unfold update_idea in Hup. rewrite Hload in Hup. simpl in Hup.
    rewrite (generate_timestamp_valid _ Hv) in Hup. simpl in Hup.
    destruct (save_idea _ _ _) as [fs1|] eqn:Hsave; [|done]. simpl in Hup.
    injection Hup as <-. apply save_idea_inv in Hsave as ->.
    rewrite updated_id, Hlid.
    split; [done|]. split; [done|]. split; [done|]. split.
    { etrans; [exact Hle|]. apply stamp_of_not_before; [done..| |done].
      unfold same_century in *. congruence. }
    eexists. split; [by rewrite lookup_insert_eq|].
    rewrite updated_id. split; [done|]. split; [congruence|done].
Qed.

(** C9 (amended): after a create and any number of successful updates of
    the created id, each finding under the id a record that carries it, as
    long as the clock never runs backwards and stays in the century of the
    create (the stamp keeps two digits of the year), the file of the id
    holds the text of a record whose [modified] is not smaller than its
    [id]: its [id] is the stamp of the create, which writes [modified =
    id], and its [modified] is the stamp of the last call. *)
Theorem modified_never_before_id (self : IdeaManager)
    (fs : gmap (list string) node) (t0 t : datetime) (idea_id : Z) :
  history self t0 idea_id t fs →
  ∃ r, fs !! get_idea_file_path self idea_id = Some (File (to_markdown r))
       ∧ id r = idea_id
       ∧ generate_timestamp t0 = Ok (id r)
       ∧ generate_timestamp t = Ok (modified r)
       ∧ (id r ≤ modified r)%Z.
Proof.
  intros (Hv0 & Hvt & _ & Hle & r & Hfile & Hid & Hr0 & Hmod)%history_file.
  exists r. rewrite !generate_timestamp_valid by done.
  split; [done|]. split; [done|]. split; [by rewrite Hr0|].
  split; [by rewrite Hmod|]. lia.
Qed.


End StoreFacts.

(** ** Concrete runs with the PyYAML model *)

Section Runs.

Lemma valid_ten_o_clock : valid_datetime ten_o_clock.
Proof. unfold valid_datetime. simpl. lia. Qed.

Lemma valid_one_second_later : valid_datetime one_second_later.
Proof. unfold valid_datetime. simpl. lia. Qed.

(** A successful call is determined by its value and its final state. *)
Lemma Ok_pair {A B} (x : result (A * B)) (a : A) (d : B) :
  fst <$> x = Ok a →
  x = Ok (a, match x with Ok (_, b) => b | Raise _ => d end).
Proof. destruct x as [[a' b]|e]; [|done]. by intros [= ->]. Qed.

Lemma well_formed_root : well_formed ({[ [] := Dir ]} : gmap _ _).
Proof.
  split; [done|]. intros p v [<- <-]%lookup_singleton_Some. by left.
Qed.

(** C1 (the defect): the record with title [a---b] is valid, its file text
    is read back with title [a] and the rest of the title in the content:
    [split("---", 2)] cuts inside the metadata block. *)
Theorem delimiter_in_title_breaks_round_trip :
  valid_idea dashed
  ∧ from_markdown {[ ["idea1.md"] := File (to_markdown dashed) ]} ["idea1.md"]
    = Ok (mkIdea 1 (YStr "a") 1 (YSeq [])
                 ("b" +:+ nl +:+ "---" +:+ nl +:+ nl +:+ "C"))
  ∧ YStr "a" ≠ title dashed.
Proof.
  split; [split; [by exists "a---b"|by exists []]|].
  split; [by vm_compute|done].
Qed.

(** C3 (the defect): [create_new_idea("a---b", [], "C")] returns a record
    with [modified = id] and the given fields, and the following
    [load_idea_by_id] of its id returns another title and content. *)
Theorem create_then_load_with_delimiter_in_title :
  fst <$> create_new_idea notes ten_o_clock "a---b" [] "C" empty_notes
  = Ok (mkIdea 261104100000 (YStr "a---b") 261104100000 (YSeq []) "C")
  ∧ then_load notes 261104100000
      (create_new_idea notes ten_o_clock "a---b" [] "C" empty_notes)
    = Ok (Some (mkIdea 261104100000 (YStr "a") 261104100000 (YSeq [])
                       ("b" +:+ nl +:+ "---" +:+ nl +:+ nl +:+ "C"))).
Proof. split; by vm_compute. Qed.

(** The example of the specification is storable, and is loaded as it was
    created. *)
Lemma storable_T :
  storable (mkIdea 261104100000 (YStr "T") 261104100000 (str_list ["a"]) "C").
Proof.
  split; [by vm_compute|].
  exists [("id", YInt 261104100000); ("modified", YInt 261104100000);
          ("tags", YSeq [YStr "a"]); ("title", YStr "T")].
  repeat split; by vm_compute.
Qed.

Example create_then_load_T :
  ∃ fs', create_new_idea notes ten_o_clock "T" ["a"] "C" empty_notes
         = Ok (mkIdea 261104100000 (YStr "T") 261104100000
                      (str_list ["a"]) "C", fs')
         ∧ load_idea_by_id notes fs' 261104100000
           = Ok (Some (mkIdea 261104100000 (YStr "T") 261104100000
                              (str_list ["a"]) "C")).
Proof.
  apply (create_then_load_storable notes empty_notes ten_o_clock "T" ["a"] "C").
  - exact valid_ten_o_clock.
  - by vm_compute.
  - by vm_compute.
  - exact storable_T.
Qed.

Lemma missing_id_is_no_error_witness :
  load_idea_by_id notes notes_with_T 9999999999999 = Ok None
  ∧ (∃ fs', update_idea notes one_second_later 9999999999999 (Some "x")
                        None None notes_with_T = Ok (false, fs'))
  ∧ (∃ fs', delete_idea notes 9999999999999 notes_with_T = Ok (false, fs')).
Proof. apply missing_id_is_no_error. by vm_compute. Defined.

Lemma failed_update_writes_nothing_witness :
  ∃ fs', update_idea notes one_second_later 9999999999999 (Some "x") None
                     None notes_with_T = Ok (false, fs')
         ∧ fs' = notes_with_T
         ∧ (∀ p, notes_with_T !! p = None → fs' !! p = None)
         ∧ (∀ p text, notes_with_T !! p = Some (File text) →
                      fs' !! p = Some (File text)).
Proof. apply failed_update_writes_nothing. by vm_compute. Defined.

(** C2 (counterexample): on the record with tags [["a"]], the update that
    supplies [tags=[]] is not the update that supplies no tags: afterwards
    the stored tags are [[]], not [["a"]]. *)
Lemma empty_tags_are_not_skipped :
  then_load notes 261104100000
    (update_idea notes one_second_later 261104100000 None None None
                 notes_with_T)
  = Ok (Some (mkIdea 261104100000 (YStr "T") 261104100001
                     (YSeq [YStr "a"]) "C"))
  ∧ then_load notes 261104100000
      (update_idea notes one_second_later 261104100000 None (Some []) None
                   notes_with_T)
    = Ok (Some (mkIdea 261104100000 (YStr "T") 261104100001 (YSeq []) "C"))
  ∧ update_idea notes one_second_later 261104100000 None (Some []) None
                notes_with_T
    ≠ update_idea notes one_second_later 261104100000 None None None
                  notes_with_T.
Proof.
  split; [by vm_compute|]. split; [by vm_compute|].
  intros H. apply (f_equal (then_load notes 261104100000)) in H.
  vm_compute in H. discriminate H.
Qed.

Lemma empty_update_arguments_witness :
  let idea := mkIdea 261104100000 (YStr "T") 261104100000
                     (YSeq [YStr "a"]) "C" in
  ∃ stamp,
    generate_timestamp one_second_later = Ok stamp
    ∧ (∀ new_tags new_content,
         update_idea notes one_second_later 261104100000 (Some "") new_tags
                     new_content notes_with_T
         = Ok (true,
               <[get_idea_file_path notes 261104100000 :=
                   File (to_markdown
                           (mkIdea 261104100000 (title idea) stamp
                              (from_option str_list (tags idea) new_tags)
                              (if truthy new_content
                               then default "" new_content
                               else content idea)))]> notes_with_T)
         ∧ update_idea notes one_second_later 261104100000 (Some "")
                       new_tags new_content notes_with_T
           = update_idea notes one_second_later 261104100000 None new_tags
                         new_content notes_with_T)
    ∧ (∀ new_title new_tags,
         update_idea notes one_second_later 261104100000 new_title new_tags
                     (Some "") notes_with_T
         = Ok (true,
               <[get_idea_file_path notes 261104100000 :=
                   File (to_markdown
                           (mkIdea 261104100000
                              (if truthy new_title
                               then YStr (default "" new_title)
                               else title idea)
                              stamp
                              (from_option str_list (tags idea) new_tags)
                              (content idea)))]> notes_with_T)
         ∧ update_idea notes one_second_later 261104100000 new_title
                       new_tags (Some "") notes_with_T
           = update_idea notes one_second_later 261104100000 new_title
                         new_tags None notes_with_T)
    ∧ (∀ new_title new_content,
         update_idea notes one_second_later 261104100000 new_title (Some [])
                     new_content notes_with_T
         = Ok (true,
               <[get_idea_file_path notes 261104100000 :=
                   File (to_markdown
                           (mkIdea 261104100000
                              (if truthy new_title
                               then YStr (default "" new_title)
                               else title idea)
                              stamp
                              (YSeq [])
                              (if truthy new_content
                               then default "" new_content
                               else content idea)))]> notes_with_T)).
Proof.
  apply (empty_update_arguments notes notes_with_T 261104100000
           one_second_later
           (mkIdea 261104100000 (YStr "T") 261104100000 (YSeq [YStr "a"])
                   "C")).
  - by vm_compute.
  - by vm_compute.
  - reflexivity.
  - exact valid_one_second_later.
Defined.

(** C4 (counterexample): half a second after the record was stamped, in
    the same second of the clock, the update stores the new title with the
    old [modified]. *)
Lemma same_second_update_keeps_modified :
  later ten_o_clock half_a_second_later
  ∧ generate_timestamp ten_o_clock = Ok 261104100000%Z
  ∧ load_idea_by_id notes notes_with_T 261104100000
    = Ok (Some (mkIdea 261104100000 (YStr "T") 261104100000
                       (YSeq [YStr "a"]) "C"))
  ∧ then_load notes 261104100000
      (update_idea notes half_a_second_later 261104100000 (Some "New") None
                   None notes_with_T)
    = Ok (Some (mkIdea 261104100000 (YStr "New") 261104100000
                       (YSeq [YStr "a"]) "C"))
  ∧ ¬ (261104100000 < 261104100000)%Z.
Proof.
  split; [unfold later; simpl; lia|].
  split; [by vm_compute|]. split; [by vm_compute|].
  split; [by vm_compute|lia].
Qed.

Lemma update_bumps_modified_witness :
  ∃ stamp,
    generate_timestamp one_second_later = Ok stamp
    ∧ (261104100000 < stamp)%Z
    ∧ update_idea notes one_second_later 261104100000 (Some "New") None None
                  notes_with_T
      = Ok (true,
            <[get_idea_file_path notes 261104100000 :=
                File (to_markdown (mkIdea 261104100000 (YStr "New") stamp
                                          (YSeq [YStr "a"]) "C"))]>
              notes_with_T).
Proof.
  apply (update_bumps_modified notes notes_with_T 261104100000
           (mkIdea 261104100000 (YStr "T") 261104100000 (YSeq [YStr "a"]) "C")
           ten_o_clock one_second_later "New").
  - by vm_compute.
  - by vm_compute.
  - reflexivity.
  - exact valid_ten_o_clock.
  - by vm_compute.
  - exact valid_one_second_later.
  - reflexivity.
  - unfold later_second. simpl. lia.
  - discriminate.
Defined.

(** C6 (counterexample): a file text without [id] makes [from_markdown]
    raise [KeyError], which is not [FormatError]. *)
Lemma missing_id_raises_KeyError :
  from_markdown_text text_without_id = Raise KeyError
  ∧ from_markdown_text text_without_id ≠ Raise FormatError.
Proof. split; [by vm_compute|]. by vm_compute. Qed.

Lemma malformed_text_raises_witness :
  from_markdown_text text_without_id = Raise KeyError ∧ KeyError ≠ FormatError.
Proof.
  apply malformed_text_raises.
  apply (malformed_no_id text_without_id ""
           (nl +:+ "title: T" +:+ nl +:+ "modified: 1" +:+ nl)
           (nl +:+ nl +:+ "C") [("title", YStr "T"); ("modified", YInt 1)]);
    by vm_compute.
Defined.

(** An [id] that is an infinite float raises [OverflowError]; a text with
    an [id] that spells no integer and without a title raises the
    [ValueError] of the [id], not the [KeyError] of the title. *)
Example other_malformed_texts :
  from_markdown_text text_with_infinite_id = Raise OverflowError
  ∧ from_markdown_text text_with_bad_id_and_no_title = Raise ValueError.
Proof. split; by vm_compute. Qed.





(** C9 (counterexample): the clock does not run backwards from the last
    second of 2099 to the first of 2100, yet the record created at the one
    and updated at the other has a [modified] below its [id]. *)
Lemma century_wrap_puts_modified_before_id :
  not_before last_second_of_2099 first_second_of_2100
  ∧ fst <$> create_new_idea notes last_second_of_2099 "T" ["a"] "C"
                             empty_notes
    = Ok (mkIdea 991231235959 (YStr "T") 991231235959 (YSeq [YStr "a"]) "C")
  ∧ then_load notes 991231235959
      (update_idea notes first_second_of_2100 991231235959 (Some "New") None
                   None notes_of_2099)
    = Ok (Some (mkIdea 991231235959 (YStr "New") 101000000
                       (YSeq [YStr "a"]) "C"))
  ∧ ¬ (991231235959 ≤ 101000000)%Z.
Proof.
  split; [left; unfold later; simpl; lia|].
  split; [by vm_compute|]. split; [by vm_compute|lia].
Qed.

Lemma modified_never_before_id_witness :
  ∃ r, notes_with_New !! get_idea_file_path notes 261104100000
       = Some (File (to_markdown r))
       ∧ id r = 261104100000%Z
       ∧ generate_timestamp ten_o_clock = Ok (id r)
       ∧ generate_timestamp one_second_later = Ok (modified r)
       ∧ (id r ≤ modified r)%Z.
Proof.
  pose (created := mkIdea 261104100000 (YStr "T") 261104100000
                          (YSeq [YStr "a"]) "C").
  apply (modified_never_before_id notes notes_with_New ten_o_clock
           one_second_later 261104100000).
  apply (history_update notes ten_o_clock 261104100000 ten_o_clock
           notes_with_T one_second_later (Some "New") None None created
           notes_with_New).
  - apply (history_create notes ten_o_clock 261104100000 "T" ["a"] "C"
             empty_notes created).
    + exact valid_ten_o_clock.
    + apply (Ok_pair _ created empty_notes). by vm_compute.
    + reflexivity.
  - exact valid_one_second_later.
  - left. unfold later. simpl. lia.
  - reflexivity.
  - by vm_compute.
  - reflexivity.
  - apply (Ok_pair _ true notes_with_T). by vm_compute.
Defined.

End Runs.

(** * Further properties of the code *)

(** ** Identifiers and file names *)

Section IdentifierFacts.

Lemma str_app_inj_r (s t u : string) : s +:+ u = t +:+ u → s = t.
Proof.
  intros H.
  assert (String.length s = String.length t) as Hlen.
  { apply (f_equal String.length) in H. rewrite !str_length_app in H. lia. }
  revert t H Hlen. induction s as [|a s IH]; intros [|b t] H Hlen;
    try done.
  rewrite !str_app_cons in H. injection H as -> H.
  f_equal. apply IH; [done|]. simpl in Hlen. lia.
Qed.

Lemma get_idea_file_path_inj (self : IdeaManager) (i j : Z) :
  get_idea_file_path self i = get_idea_file_path self j → i = j.
Proof.
  unfold get_idea_file_path, str_of_int.
  intros H%app_inv_head. injection H as H.
  change (pretty i +:+ ".md" = pretty j +:+ ".md") in H.
  apply str_app_inj_r in H. by apply (inj pretty) in H.
Qed.

(** A file of the store never is the store directory. *)
Lemma get_idea_file_path_not_directory (self : IdeaManager) (i : Z) :
  get_idea_file_path self i ≠ directory self.
Proof.
  unfold get_idea_file_path. intros H%(f_equal length).
  rewrite length_app in H. simpl in H. lia.
Qed.

(** X1: two different ids never share a backing file. *)
Theorem idea_files_differ (self : IdeaManager) (i j : Z) :
  i ≠ j → get_idea_file_path self i ≠ get_idea_file_path self j.
Proof. intros Hne H. by apply Hne, (get_idea_file_path_inj self). Qed.

Lemma stamp_of_same_second (t t' : datetime) :
  clock_second t = clock_second t' → stamp_of t = stamp_of t'.
Proof.
  unfold clock_second, stamp_of. intros [= -> -> -> -> -> ->]. done.
Qed.

(** X2: between two valid instants of one century, the stamp of the later
    second is strictly greater. *)
Theorem generate_timestamp_grows (t t' : datetime) :
  valid_datetime t → valid_datetime t' → same_century t t' →
  later_second t t' →
  ∃ s s', generate_timestamp t = Ok s ∧ generate_timestamp t' = Ok s'
          ∧ (s < s')%Z.
Proof.
  intros Ht Ht' Hc Hl. exists (stamp_of t), (stamp_of t').
  rewrite !generate_timestamp_valid by done.
  split; [done|]. split; [done|]. by apply stamp_of_later_second.
Qed.

(** X3: within one century two valid instants get the same stamp exactly
    when they lie in the same second of the clock: the microsecond never
    counts, and ids are unique per second only. *)
Theorem generate_timestamp_collides (t t' : datetime) :
  valid_datetime t → valid_datetime t' → same_century t t' →
  generate_timestamp t = generate_timestamp t'
  ↔ clock_second t = clock_second t'.
Proof.
  intros Ht Ht' Hc. rewrite !generate_timestamp_valid by done. split.
  - intros [= H].
    destruct Ht as (Hy & Hm & Hd & Hh & Hmi & Hs & _).
    destruct Ht' as (Hy' & Hm' & Hd' & Hh' & Hmi' & Hs' & _).
    unfold same_century in Hc. unfold stamp_of in H. unfold clock_second.
    pose proof (Z.div_mod (year t) 100).
    pose proof (Z.div_mod (year t') 100).
    pose proof (Z.mod_pos_bound (year t) 100).
    pose proof (Z.mod_pos_bound (year t') 100).
    assert (second t = second t') as -> by lia.
    assert (minute t = minute t') as -> by lia.
    assert (hour t = hour t') as -> by lia.
    assert (day t = day t') as -> by lia.
    assert (month t = month t') as -> by lia.
    assert (year t = year t') as -> by lia.
    done.
  - intros H. by rewrite (stamp_of_same_second t t' H).
Qed.

(** X4: the stamp of a valid instant lies between 101000000 and
    991231235959; it has twelve digits exactly when the last two digits of
    the year are at least 10. *)
Theorem generate_timestamp_range (t : datetime) :
  valid_datetime t →
  ∃ s, generate_timestamp t = Ok s
       ∧ (101000000 ≤ s ≤ 991231235959)%Z
       ∧ ((100000000000 ≤ s)%Z ↔ (10 ≤ year t `mod` 100)%Z).
Proof.
  intros Ht. exists (stamp_of t). rewrite generate_timestamp_valid by done.
  split; [done|].
  destruct Ht as (Hy & Hm & Hd & Hh & Hmi & Hs & _).
  pose proof (Z.mod_pos_bound (year t) 100). unfold stamp_of. lia.
Qed.

End IdentifierFacts.

(** ** Create, update and delete *)

Section OperationFacts.
Context {Y : YamlLib}.

(** [load_idea_by_id] looks at one path only. *)
Lemma load_idea_by_id_ext (self : IdeaManager)
    (fs fs' : gmap (list string) node) (idea_id : Z) :
  fs' !! get_idea_file_path self idea_id
  = fs !! get_idea_file_path self idea_id →
  load_idea_by_id self fs' idea_id = load_idea_by_id self fs idea_id.
Proof.
  intros H. unfold load_idea_by_id, os_path_exists, from_markdown, open_read.
  by rewrite H.
Qed.

(** Loading the id whose file was just written parses the written text. *)
Lemma load_written (self : IdeaManager) (fs : gmap (list string) node)
    (idea_id : Z) (text : string) :
  load_idea_by_id self
    (<[get_idea_file_path self idea_id := File text]> fs) idea_id
  = Some <$> from_markdown_text (universal_newlines text).
Proof.
  unfold load_idea_by_id, os_path_exists, from_markdown, open_read.
  rewrite lookup_insert_eq. by rewrite bool_decide_eq_true_2 by eauto.
Qed.

(** What a successful create does to the file system. *)
Lemma create_new_idea_Ok (self : IdeaManager) (fs : gmap (list string) node)
    (now : datetime) (new_title : string) (new_tags : list string)
    (new_content : string) :
  valid_datetime now →
  fs !! directory self = Some Dir →
  fs !! get_idea_file_path self (stamp_of now) ≠ Some Dir →
  create_new_idea self now new_title new_tags new_content fs
  = let r := mkIdea (stamp_of now) (YStr new_title) (stamp_of now)
                    (str_list new_tags) new_content in
    Ok (r, <[get_idea_file_path self (stamp_of now) :=
               File (to_markdown r)]> fs).
Proof.
  intros Hnow Hdir Hpath. unfold create_new_idea.
  rewrite (generate_timestamp_valid now Hnow). simpl.
  by rewrite save_idea_Ok.
Qed.

(** X5: in an existing store directory, a storable record that is saved is
    read back from its file with the same [id], [title], [modified] and
    [tags] and with its content stripped, whatever the content holds. *)
Theorem saved_record_is_read_back (self : IdeaManager)
    (fs : gmap (list string) node) (r : Idea) :
  fs !! directory self = Some Dir →
  fs !! get_idea_file_path self (id r) ≠ Some Dir →
  storable r →
  ∃ fs', save_idea self r fs = Ok fs'
         ∧ from_markdown fs' (get_idea_file_path self (id r))
           = Ok (set_content (strip (universal_newlines (content r))) r).
Proof.
  intros Hdir Hpath Hst. eexists. split; [by apply save_idea_Ok|].
  unfold from_markdown, open_read. rewrite lookup_insert_eq. simpl.
  by apply round_trip_storable.
Qed.

(** X6: in an existing store directory, a create whose record is storable
    succeeds, and the load of the new id returns the created record with
    its content stripped. *)
Theorem created_record_is_loaded (self : IdeaManager)
    (fs : gmap (list string) node) (now : datetime)
    (new_title : string) (new_tags : list string) (new_content : string) :
  valid_datetime now →
  fs !! directory self = Some Dir →
  fs !! get_idea_file_path self (stamp_of now) ≠ Some Dir →
  storable (mkIdea (stamp_of now) (YStr new_title) (stamp_of now)
                   (str_list new_tags) new_content) →
  ∃ r fs', create_new_idea self now new_title new_tags new_content fs
           = Ok (r, fs')
           ∧ id r = stamp_of now ∧ modified r = id r
           ∧ title r = YStr new_title ∧ tags r = str_list new_tags
           ∧ content r = new_content
           ∧ load_idea_by_id self fs' (id r)
             = Ok (Some (set_content
                           (strip (universal_newlines new_content)) r)).
Proof.
  intros Hnow Hdir Hpath Hst.
  rewrite create_new_idea_Ok by done. simpl. eexists _, _.
  split; [done|]. simpl. repeat (split; [done|]).
  rewrite load_written. by rewrite (round_trip_storable _ Hst).
Qed.

(** X7: deleting an id whose file exists removes that file and nothing
    else and returns [True]; afterwards the id loads as [None] and a second
    delete returns [False]. *)
Theorem delete_then_load (self : IdeaManager)
    (fs : gmap (list string) node) (idea_id : Z) (text : string) :
  fs !! get_idea_file_path self idea_id = Some (File text) →
  ∃ fs', delete_idea self idea_id fs = Ok (true, fs')
         ∧ fs' = delete (get_idea_file_path self idea_id) fs
         ∧ load_idea_by_id self fs' idea_id = Ok None
         ∧ delete_idea self idea_id fs' = Ok (false, fs').
Proof.
  intros Hfile. eexists. unfold delete_idea, os_path_exists, os_remove.
  rewrite Hfile. rewrite bool_decide_eq_true_2 by eauto. simpl.
  split; [done|]. split; [done|].
  unfold load_idea_by_id, os_path_exists. rewrite lookup_delete_eq.
  rewrite !bool_decide_eq_false_2 by (by intros [? ?]). done.
Qed.

(** X8: two creates in the same second of the clock write the same file.
    The first create writes the text of its record into the file of the
    stamp; the second create returns a record with the same id and writes
    the text of its own record into that file, so that the first record is
    gone: the store is left exactly as the second create alone would have
    left it. *)
Theorem same_second_create_overwrites (self : IdeaManager)
    (fs : gmap (list string) node) (t t' : datetime)
    (title1 : string) (tags1 : list string) (content1 : string)
    (title2 : string) (tags2 : list string) (content2 : string) :
  valid_datetime t → valid_datetime t' →
  clock_second t = clock_second t' →
  fs !! directory self = Some Dir →
  fs !! get_idea_file_path self (stamp_of t) ≠ Some Dir →
  ∃ r1 fs1 r2 fs2,
    create_new_idea self t title1 tags1 content1 fs = Ok (r1, fs1)
    ∧ r1 = mkIdea (stamp_of t) (YStr title1) (stamp_of t) (str_list tags1)
                  content1
    ∧ fs1 = <[get_idea_file_path self (id r1) := File (to_markdown r1)]> fs
    ∧ create_new_idea self t' title2 tags2 content2 fs1 = Ok (r2, fs2)
    ∧ r2 = mkIdea (stamp_of t) (YStr title2) (stamp_of t) (str_list tags2)
                  content2
    ∧ id r2 = id r1
    ∧ fs2 !! get_idea_file_path self (id r1) = Some (File (to_markdown r2))
    ∧ fs2 = <[get_idea_file_path self (id r1) := File (to_markdown r2)]> fs
    ∧ create_new_idea self t' title2 tags2 content2 fs = Ok (r2, fs2).
Proof.
  intros Ht Ht' Hsec Hdir Hpath.
  pose proof (stamp_of_same_second t t' Hsec) as Hs.
  pose (r1 := mkIdea (stamp_of t) (YStr title1) (stamp_of t)
                     (str_list tags1) content1).
  pose (r2 := mkIdea (stamp_of t) (YStr title2) (stamp_of t)
                     (str_list tags2) content2).
  pose (p := get_idea_file_path self (stamp_of t)).
  exists r1, (<[p := File (to_markdown r1)]> fs),
         r2, (<[p := File (to_markdown r2)]> fs).
  split; [by rewrite create_new_idea_Ok|].
  split; [done|]. split; [done|]. split.
  { rewrite create_new_idea_Ok; [| done | |].
    - simpl. rewrite <-Hs. fold r2 p. by rewrite insert_insert_eq.
    - rewrite lookup_insert_ne; [done|].
      apply get_idea_file_path_not_directory.
    - rewrite <-Hs. fold p. by rewrite lookup_insert_eq. }
  split; [done|]. split; [done|].
  split; [simpl; fold p; by rewrite lookup_insert_eq|].
  split; [done|].
  rewrite create_new_idea_Ok; [|done|done|by rewrite <-Hs].
  simpl. rewrite <-Hs. by fold r2 p.
Qed.

(** X9: on an existing record, a successful update rewrites the file of the
    loaded record's own [id] and nothing else; the record written has that
    [id], the stamp of the instant as [modified], the title and the content
    of the call when they are non-empty, the tags of the call when they are
    given, and the loaded values otherwise. *)
Theorem update_rewrites_loaded_record (self : IdeaManager)
    (fs : gmap (list string) node) (now : datetime) (idea_id : Z)
    (idea : Idea) (new_title : option string)
    (new_tags : option (list string)) (new_content : option string) :
  valid_datetime now →
  fs !! directory self = Some Dir →
  load_idea_by_id self fs idea_id = Ok (Some idea) →
  fs !! get_idea_file_path self (id idea) ≠ Some Dir →
  ∃ u stamp,
    generate_timestamp now = Ok stamp
    ∧ update_idea self now idea_id new_title new_tags new_content fs
      = Ok (true,
            <[get_idea_file_path self (id idea) := File (to_markdown u)]> fs)
    ∧ id u = id idea ∧ modified u = stamp
    ∧ title u = (if truthy new_title then YStr (default "" new_title)
                 else title idea)
    ∧ tags u = from_option str_list (tags idea) new_tags
    ∧ content u = (if truthy new_content then default "" new_content
                   else content idea).
Proof.
  intros Hnow Hdir Hload Hpath.
  exists (updated idea new_title new_tags new_content (stamp_of now)),
         (stamp_of now).
  split; [by apply generate_timestamp_valid|].
  split; [by apply update_idea_Ok|].
  unfold updated.
  by destruct (truthy new_title), new_tags, (truthy new_content).
Qed.

(** X10: when the file of an id holds a record with another [id], an update
    of the first id returns [True] but writes the file of the other id: the
    file it read stays as it was and the id loads as before. *)
Theorem update_follows_stored_id (self : IdeaManager)
    (fs : gmap (list string) node) (now : datetime) (idea_id : Z)
    (idea : Idea) (new_title : option string)
    (new_tags : option (list string)) (new_content : option string) :
  valid_datetime now →
  fs !! directory self = Some Dir →
  load_idea_by_id self fs idea_id = Ok (Some idea) →
  id idea ≠ idea_id →
  fs !! get_idea_file_path self (id idea) ≠ Some Dir →
  ∃ fs', update_idea self now idea_id new_title new_tags new_content fs
         = Ok (true, fs')
         ∧ fs' !! get_idea_file_path self idea_id
           = fs !! get_idea_file_path self idea_id
         ∧ is_Some (fs' !! get_idea_file_path self (id idea))
         ∧ load_idea_by_id self fs' idea_id = Ok (Some idea).
Proof.
  intros Hnow Hdir Hload Hne Hpath. eexists.
  split; [by apply update_idea_Ok|].
  assert (get_idea_file_path self (id idea)
          ≠ get_idea_file_path self idea_id) as Hp.
  { intros H%get_idea_file_path_inj. done. }
  split; [by rewrite lookup_insert_ne|].
  split; [by rewrite lookup_insert_eq|].
  rewrite <-Hload. apply load_idea_by_id_ext. by rewrite lookup_insert_ne.
Qed.

(** X11: on an existing record stored under its own id, when the updated
    record is storable, the load that follows a successful update returns
    the updated record with its content stripped. *)
Theorem update_then_load (self : IdeaManager)
    (fs : gmap (list string) node) (now : datetime) (idea_id : Z)
    (idea : Idea) (new_title : option string)
    (new_tags : option (list string)) (new_content : option string) :
  valid_datetime now →
  fs !! directory self = Some Dir →
  load_idea_by_id self fs idea_id = Ok (Some idea) →
  id idea = idea_id →
  storable (updated idea new_title new_tags new_content (stamp_of now)) →
  ∃ fs', update_idea self now idea_id new_title new_tags new_content fs
         = Ok (true, fs')
         ∧ load_idea_by_id self fs' idea_id
           = Ok (Some
                   (set_content
                      (strip (universal_newlines
                                (content (updated idea new_title new_tags
                                            new_content (stamp_of now)))))
                      (updated idea new_title new_tags new_content
                               (stamp_of now)))).
Proof.
  intros Hnow Hdir Hload Hid Hst.
  destruct (load_idea_by_id_Some _ _ _ _ Hload) as (text & Hfile & _).
  eexists. split.
  - apply update_idea_Ok; [done..|]. rewrite Hid, Hfile. done.
  - rewrite Hid, load_written. by rewrite (round_trip_storable _ Hst).
Qed.

End OperationFacts.

(** ** Parsing a file text *)

Section ParsingFacts.
Context {Y : YamlLib}.

Lemma split_length (sep : string) (n : nat) (s : string) :
  length (split sep n s) ≤ S n.
Proof.
  revert s. induction n as [|n IH]; intros s; simpl; [lia|].
  destruct (find_sep sep s) as [[a b]|]; simpl; [|lia].
  specialize (IH b). lia.
Qed.

(** What a successful parse says about the text. *)
Lemma from_markdown_text_inv (text : string) (r : Idea) :
  from_markdown_text text = Ok r →
  ∃ before metadata body d x y,
    split "---" 2 text = [before; metadata; body]
    ∧ yaml_safe_load metadata = Ok (YMap d)
    ∧ dict_get "id" d = Some x ∧ py_int x = Ok (id r)
    ∧ dict_get "title" d = Some (title r)
    ∧ dict_get "modified" d = Some y ∧ py_int y = Ok (modified r)
    ∧ tags r = default (YSeq []) (dict_get "tags" d)
    ∧ content r = strip body.
Proof.
  unfold from_markdown_text.
  destruct (split "---" 2 text) as [|before [|metadata [|body [|? ?]]]];
    simpl; try done.
  destruct (yaml_safe_load metadata) as [v|e0] eqn:Hl; simpl; [|done].
  destruct v as [| | | | | | | | | |d]; simpl; try done.
  destruct (dict_get "id" d) as [x|] eqn:Hid; simpl; [|done].
  destruct (py_int x) as [i|] eqn:Hi; simpl; [|done].
  destruct (dict_get "title" d) as [t|] eqn:Ht; simpl; [|done].
  destruct (dict_get "modified" d) as [y|] eqn:Hm; simpl; [|done].
  destruct (py_int y) as [m|] eqn:Hy; simpl; [|done].
  intros [= <-]. simpl. exists before, metadata, body, d, x, y.
  repeat split; try done. all: by destruct (dict_get "tags" d).
Qed.

(** X13: every exception that [from_markdown] raises on a text it has read
    is the one that [malformed] tells for the first defect of this text,
    and it is the exception that the library raised on the metadata block,
    or [ValueError] (missing markers, an [id] or [modified] that spells no
    integer or is a NaN), [TypeError] (a metadata block that is not a
    mapping, an [id] or [modified] that is no number and no text),
    [KeyError] (a missing [id], [title] or [modified]) or [OverflowError]
    (an infinite [id] or [modified]). *)
Theorem from_markdown_raises_only_malformed (text : string) (e : exn) :
  from_markdown_text text = Raise e →
  malformed text e
  ∧ ((∃ before metadata body,
        split "---" 2 text = [before; metadata; body]
        ∧ yaml_safe_load metadata = Raise e)
     ∨ e = ValueError ∨ e = TypeError ∨ e = KeyError ∨ e = OverflowError).
Proof.
  unfold from_markdown_text. generalize (split_length "---" 2 text).
  destruct (split "---" 2 text) as [|before [|metadata [|body [|? ?]]]]
    eqn:Hs; simpl; intros Hlen; try lia;
    try (intros [= <-]; split; [|by auto];
         apply malformed_markers; rewrite Hs; simpl; lia).
  destruct (yaml_safe_load metadata) as [v|e0] eqn:Hy; simpl.
  2:{ intros [= <-]. split; [by eapply malformed_yaml|].
      left. by exists before, metadata, body. }
  destruct v as [| | | | | | | | | |d];
    try (simpl; intros [= <-]; split; [|by auto];
         eapply malformed_not_mapping; [done..|]; by intros d).
  simpl. destruct (dict_get "id" d) as [x|] eqn:Hid; simpl.
  2:{ intros [= <-]. split; [|by auto]. by eapply malformed_no_id. }
  destruct (py_int x) as [i|e1] eqn:Hi; simpl.
  2:{ intros [= <-]. apply py_int_Raise in Hi.
      split; [by eapply malformed_bad_id|].
      destruct (int_refuses_exn _ _ Hi) as [-> | [-> | ->]]; auto. }
  destruct (dict_get "title" d) as [t|] eqn:Ht; simpl.
  2:{ intros [= <-]. split; [|by auto]. by eapply malformed_no_title. }
  destruct (dict_get "modified" d) as [y|] eqn:Hm; simpl.
  2:{ intros [= <-]. split; [|by auto]. by eapply malformed_no_modified. }
  destruct (py_int y) as [m|e2] eqn:Hmi; simpl; [done|].
  intros [= <-]. apply py_int_Raise in Hmi.
  split; [by eapply malformed_bad_modified|].
  destruct (int_refuses_exn _ _ Hmi) as [-> | [-> | ->]]; auto.
Qed.

Lemma lstrip_head (s : string) (c : ascii) (rest : string) :
  lstrip s = String c rest → isspace c = false.
Proof.
  induction s as [|a s IH]; simpl; [done|].
  destruct (isspace a) eqn:Ha; [done|]. by intros [= <- _].
Qed.

Lemma rstrip_cons (c : ascii) (s : string) :
  isspace c = false → ∃ t, rstrip (String c s) = String c t.
Proof. intros Hc. simpl. rewrite Hc. destruct (rstrip s); eauto. Qed.

Lemma rstrip_last (s : string) (c : ascii) :
  last_char (rstrip s) = Some c → isspace c = false.
Proof.
  induction s as [|a s IH]; simpl; [done|].
  destruct (rstrip s) as [|c2 t2] eqn:E.
  - destruct (isspace a) eqn:Ha; simpl; [done|]. by intros [= <-].
  - exact IH.
Qed.

Lemma rstrip_idemp (s : string) : rstrip (rstrip s) = rstrip s.
Proof.
  induction s as [|a s IH]; simpl; [done|].
  destruct (rstrip s) as [|c2 t2] eqn:E.
  - destruct (isspace a) eqn:Ha; simpl; [done|]. by rewrite Ha.
  - change (rstrip (String a (String c2 t2)))
      with (match rstrip (String c2 t2) with
            | "" => if isspace a then "" else String a ""
            | t => String a t
            end).
    by rewrite IH.
Qed.

Lemma strip_head (s : string) (c : ascii) (rest : string) :
  strip s = String c rest → isspace c = false.
Proof.
  unfold strip. destruct (lstrip s) as [|c0 l0] eqn:E; [done|].
  pose proof (lstrip_head _ _ _ E) as Hc0.
  destruct (rstrip_cons c0 l0 Hc0) as [t ->]. by intros [= <- _].
Qed.

Lemma strip_idemp (s : string) : strip (strip s) = strip s.
Proof.
  destruct (strip s) as [|c t] eqn:E; [done|].
  pose proof (strip_head _ _ _ E) as Hc.
  unfold strip in *. simpl. rewrite Hc.
  change (match rstrip t with
          | "" => if isspace c then "" else String c ""
          | String a s0 => String c (String a s0)
          end) with (rstrip (String c t)).
  rewrite <-E. apply rstrip_idemp.
Qed.

(** X14: the content of every record that [from_markdown] returns is
    stripped: stripping it again changes nothing, and it neither starts nor
    ends with a whitespace character. *)
Theorem loaded_content_is_stripped (text : string) (r : Idea) :
  from_markdown_text text = Ok r →
  strip (content r) = content r
  ∧ (∀ c rest, content r = String c rest → isspace c = false)
  ∧ (∀ c, last_char (content r) = Some c → isspace c = false).
Proof.
  intros (_ & _ & body & _ & _ & _ & _ & _ & _ & _ & _ & _ & _ & _ & ->)
    %from_markdown_text_inv.
  split; [apply strip_idemp|]. split.
  - intros c rest. apply strip_head.
  - intros c. apply rstrip_last.
Qed.

End ParsingFacts.

(** ** Listing and constructing a store *)

Section ListingFacts.
Context {Y : YamlLib}.

(** The loop of [load_all_ideas] raises what the first markdown file that
    fails to parse raises. *)
Lemma load_each_Raise (self : IdeaManager) (fs : gmap (list string) node)
    (names : list string) (e : exn) :
  load_each self fs names = Raise e →
  ∃ n, n ∈ md_names names
       ∧ from_markdown fs (directory self ++ [n]) = Raise e.
Proof.
  unfold md_names. induction names as [|n names IH]; simpl; [done|].
  destruct (endswith ".md" n) eqn:Hn.
  - rewrite filter_cons_True by done.
    destruct (from_markdown fs (directory self ++ [n])) as [idea|e1]
      eqn:Hfm; simpl.
    + destruct (load_each self fs names) as [rest|e2]; simpl; [done|].
      intros [= ->]. destruct IH as (n' & Hin & Hr); [done|].
      exists n'. split; [by right|done].
    + intros [= ->]. exists n. split; [by left|done].
  - rewrite filter_cons_False by (by rewrite Hn). exact IH.
Qed.

(** Without a markdown file in the store directory, nothing is loaded. *)
Lemma load_all_ideas_nothing (self : IdeaManager)
    (fs : gmap (list string) node) :
  fs !! directory self = Some Dir →
  (∀ n, is_Some (fs !! (directory self ++ [n])) → endswith ".md" n = false) →
  load_all_ideas self fs = Ok [].
Proof.
  intros Hd Hno.
  destruct (os_listdir_spec fs (directory self) Hd)
    as (listed & Hl & _ & Hin).
  unfold load_all_ideas. rewrite Hl. simpl. apply load_each_spec.
  assert (md_names listed = []) as ->; [|constructor].
  unfold md_names. destruct (filter _ listed) as [|n l] eqn:E; [done|].
  assert (n ∈ filter (λ n, endswith ".md" n = true) listed) as Hn
    by (rewrite E; by left).
  apply list_elem_of_filter in Hn as [Hmd Hn%Hin%Hno]. congruence.
Qed.

(** X15: when one markdown file of the store directory does not parse,
    [load_all_ideas] returns no list at all: it raises the exception of a
    markdown file of the directory that does not parse. *)
Theorem load_all_ideas_aborts (self : IdeaManager)
    (fs : gmap (list string) node) (n : string) (e : exn) :
  fs !! directory self = Some Dir →
  is_Some (fs !! (directory self ++ [n])) →
  endswith ".md" n = true →
  from_markdown fs (directory self ++ [n]) = Raise e →
  ∃ n' e', load_all_ideas self fs = Raise e'
           ∧ is_Some (fs !! (directory self ++ [n']))
           ∧ endswith ".md" n' = true
           ∧ from_markdown fs (directory self ++ [n']) = Raise e'.
Proof.
  intros Hd Hex Hmd Hbad.
  destruct (os_listdir_spec fs (directory self) Hd)
    as (listed & Hl & _ & Hin).
  unfold load_all_ideas. rewrite Hl. simpl.
  destruct (load_each self fs listed) as [ideas|e'] eqn:Hload.
  - apply load_each_spec in Hload.
    assert (n ∈ md_names listed) as Hn.
    { unfold md_names. apply list_elem_of_filter. split; [done|].
      by apply Hin. }
    apply list_elem_of_lookup in Hn as [k Hk].
    destruct (Forall2_lookup_l _ _ _ _ _ Hload Hk) as (idea & _ & Hok).
    congruence.
  - destruct (load_each_Raise _ _ _ _ Hload) as (n' & Hn' & Hr).
    unfold md_names in Hn'. apply list_elem_of_filter in Hn' as [Hmd' Hl'].
    exists n', e'. split; [done|]. split; [by apply Hin|done].
Qed.

(** X16: on an existing store directory without an entry whose name ends
    in [.md], be it empty or not, [load_all_ideas] returns the empty
    list. *)
Theorem load_all_ideas_without_md (self : IdeaManager)
    (fs : gmap (list string) node) :
  fs !! directory self = Some Dir →
  (∀ n, is_Some (fs !! (directory self ++ [n])) → endswith ".md" n = false) →
  load_all_ideas self fs = Ok []
  ∧ ∀ ideas, load_all_ideas self fs = Ok ideas → length ideas = 0.
Proof.
  intros Hd Hno. rewrite (load_all_ideas_nothing self fs Hd Hno).
  split; [done|]. by intros ideas [= <-].
Qed.

Lemma os_mkdir_Ok (p : list string) (fs fs' : gmap (list string) node) :
  os_mkdir p fs = Ok fs' → fs' = <[p := Dir]> fs.
Proof.
  unfold os_mkdir. destruct (fs !! p); [done|].
  destruct (fs !! dirname p) as [[?|]|]; [done| |done]. by intros [= <-].
Qed.

Lemma os_makedirs_Ok (p : list string) (fs fs' : gmap (list string) node) :
  os_makedirs p fs = Ok fs' → fs' !! p = Some Dir.
Proof.
  unfold os_makedirs. rewrite <-(rev_involutive p) at 2.
  destruct (rev p) as [|tail rhead]; simpl.
  - intros ->%os_mkdir_Ok. by rewrite lookup_insert_eq.
  - destruct (match rhead with
              | [] => Ok fs
              | _ :: _ =>
                  if os_path_exists fs (rev rhead) then Ok fs
                  else match os_makedirs_rev rhead fs with
                       | Raise FileExistsError => Ok fs
                       | r => r
                       end
              end) as [fs1|e]; simpl; [|done].
    intros ->%os_mkdir_Ok. by rewrite lookup_insert_eq.
Qed.

(** X17: the constructor is idempotent: after a successful construction
    the path has an entry, and a second construction on the same path
    succeeds and changes nothing. *)
Theorem init_twice (fs fs' : gmap (list string) node)
    (directory : list string) (self : IdeaManager) :
  IdeaManager_init directory fs = Ok (self, fs') →
  self = mkIdeaManager directory
  ∧ is_Some (fs' !! directory)
  ∧ IdeaManager_init directory fs' = Ok (self, fs').
Proof.
  unfold IdeaManager_init, os_path_exists.
  destruct (bool_decide (is_Some (fs !! directory))) eqn:Hex.
  - intros [= <- <-]. rewrite Hex.
    apply bool_decide_eq_true in Hex. done.
  - destruct (os_makedirs directory fs) as [fs1|e] eqn:Hmk; simpl; [|done].
    intros [= <- <-]. apply os_makedirs_Ok in Hmk.
    rewrite bool_decide_eq_true_2 by eauto. eauto.
Qed.

(** X18: the constructor accepts a path that is a regular file, and in a
    well-formed file system every later create and every listing of that
    store raises [NotADirectoryError]. *)
Theorem store_on_a_file_is_unusable (fs : gmap (list string) node)
    (directory : list string) (text : string) (now : datetime)
    (new_title : string) (new_tags : list string) (new_content : string) :
  well_formed fs →
  fs !! directory = Some (File text) →
  valid_datetime now →
  IdeaManager_init directory fs = Ok (mkIdeaManager directory, fs)
  ∧ create_new_idea (mkIdeaManager directory) now new_title new_tags
                    new_content fs
    = Raise NotADirectoryError
  ∧ load_all_ideas (mkIdeaManager directory) fs = Raise NotADirectoryError.
Proof.
  intros Hwf Hfile Hnow. split; [|split].
  - unfold IdeaManager_init, os_path_exists.
    by rewrite bool_decide_eq_true_2 by eauto.
  - unfold create_new_idea. rewrite (generate_timestamp_valid now Hnow).
    simpl. unfold save_idea, open_write, get_idea_file_path. simpl.
    rewrite dirname_app, Hfile.
    destruct (fs !! (directory ++ _)) as [v|] eqn:E; [|done].
    assert (fs !! directory = Some Dir) as Hd
      by (eapply well_formed_parent; eauto).
    congruence.
  - unfold load_all_ideas, os_listdir. simpl. by rewrite Hfile.
Qed.

(** X19: a store that the constructor had to make is empty: in a
    well-formed file system, on a path without entry and without a regular
    file among its ancestors, construction succeeds and the first listing
    returns the empty list. *)
Theorem fresh_store_is_empty (fs : gmap (list string) node)
    (directory : list string) :
  well_formed fs →
  fs !! directory = None →
  (∀ q text, q `prefix_of` directory → fs !! q ≠ Some (File text)) →
  ∃ self fs', IdeaManager_init directory fs = Ok (self, fs')
              ∧ fs' !! directory = Some Dir
              ∧ load_all_ideas self fs' = Ok [].
Proof.
  intros Hwf Hnone Hfiles.
  destruct (os_makedirs_rev_spec (rev directory) fs Hwf)
    as (fs' & Hmk & Hpost).
  { by rewrite rev_involutive. }
  { intros q text. rewrite rev_involutive. apply Hfiles. }
  rewrite rev_involutive in Hpost.
  exists (mkIdeaManager directory), fs'.
  unfold IdeaManager_init, os_path_exists.
  rewrite bool_decide_eq_false_2 by (rewrite Hnone; by intros [? ?]).
  unfold os_makedirs. rewrite Hmk. simpl. split; [done|].
  assert (fs' !! directory = Some Dir) as Hd.
  { rewrite Hpost. by rewrite decide_True. }
  split; [done|]. apply load_all_ideas_nothing; [done|].
  intros n [v Hv]. simpl in Hv. rewrite Hpost in Hv.
  destruct (decide _) as [[Hp _]|_].
  - apply prefix_length in Hp. rewrite length_app in Hp. simpl in Hp. lia.
  - assert (fs !! directory = Some Dir) as Hd'
      by (eapply well_formed_parent; eauto).
    congruence.
Qed.

End ListingFacts.

(** ** The package module *)

Section PackageFacts.

(** X20: [process_arguments] never returns, and so the import of the
    package never completes: whatever the command line, the environment and
    the working directory are, the call raises.  The [return] statement
    reads the name [trf_home], which nothing binds, and raises [NameError];
    only when the working directory is asked for and is gone, [os.getcwd]
    raises [FileNotFoundError] before that.  By then the call has removed
    [sys.argv[1]] from [sys.argv] exactly when [int] accepts it. *)
Theorem process_arguments_raises_NameError (argv : list string)
    (environ : gmap string string) (cwd : option string) :
  ∃ argv' : list string,
    argv' = match argv with
            | program :: level :: rest =>
                match int_of_str level with
                | Some _ => program :: rest
                | None => argv
                end
            | _ => argv
            end
    ∧ process_arguments argv environ cwd
      = (if bool_decide (1 < length argv')
            || truthy (environ !! "ITRKHOME") || bool_decide (is_Some cwd)
         then NameError "trf_home" else Raises FileNotFoundError, argv')
    ∧ itrk_module argv environ cwd
      = (if bool_decide (1 < length argv')
            || truthy (environ !! "ITRKHOME") || bool_decide (is_Some cwd)
         then NameError "trf_home" else Raises FileNotFoundError, argv').
Proof.
  eexists. split; [done|].
  unfold itrk_module, process_arguments.
  destruct argv as [|program [|level rest]]; simpl.
  - destruct (truthy (environ !! "ITRKHOME")) eqn:Ht; simpl.
    + destruct (environ !! "ITRKHOME"); [done|by simpl in Ht].
    + by destruct cwd.
  - destruct (truthy (environ !! "ITRKHOME")) eqn:Ht; simpl.
    + destruct (environ !! "ITRKHOME"); [done|by simpl in Ht].
    + by destruct cwd.
  - destruct (int_of_str level); simpl.
    + destruct rest as [|home rest]; simpl; [|done].
      destruct (truthy (environ !! "ITRKHOME")) eqn:Ht; simpl.
      * destruct (environ !! "ITRKHOME"); [done|by simpl in Ht].
      * by destruct cwd.
    + done.
Qed.

End PackageFacts.

(** ** Concrete runs of the further properties *)

Section MoreRuns.

Lemma valid_half_a_second_later : valid_datetime half_a_second_later.
Proof. unfold valid_datetime. simpl. lia. Qed.

Lemma storable_New :
  storable (updated (mkIdea 261104100000 (YStr "T") 261104100000
                            (str_list ["a"]) "C")
                    (Some "New") None None (stamp_of one_second_later)).
Proof.
  split; [by vm_compute|].
  exists [("id", YInt 261104100000); ("modified", YInt 261104100001);
          ("tags", YSeq [YStr "a"]); ("title", YStr "New")].
  repeat split; by vm_compute.
Qed.

Lemma well_formed_notes_is_a_file : well_formed notes_is_a_file.
Proof.
  split; [by vm_compute|]. unfold notes_is_a_file.
  apply map_Forall_insert_2; [by left|].
  apply map_Forall_insert_2; [by right|]. apply map_Forall_empty.
Qed.

Lemma idea_files_differ_witness :
  get_idea_file_path notes 5 ≠ get_idea_file_path notes 6.
Proof. apply idea_files_differ. lia. Defined.

Lemma generate_timestamp_grows_witness :
  ∃ s s', generate_timestamp ten_o_clock = Ok s
          ∧ generate_timestamp one_second_later = Ok s' ∧ (s < s')%Z.
Proof.
  apply generate_timestamp_grows.
  - exact valid_ten_o_clock.
  - exact valid_one_second_later.
  - reflexivity.
  - unfold later_second. simpl. lia.
Defined.

Lemma generate_timestamp_collides_witness :
  generate_timestamp ten_o_clock = generate_timestamp half_a_second_later
  ↔ clock_second ten_o_clock = clock_second half_a_second_later.
Proof.
  apply generate_timestamp_collides.
  - exact valid_ten_o_clock.
  - exact valid_half_a_second_later.
  - reflexivity.
Defined.

Lemma generate_timestamp_range_witness :
  ∃ s, generate_timestamp ten_o_clock = Ok s
       ∧ (101000000 ≤ s ≤ 991231235959)%Z
       ∧ ((100000000000 ≤ s)%Z ↔ (10 ≤ year ten_o_clock `mod` 100)%Z).
Proof. apply generate_timestamp_range. exact valid_ten_o_clock. Defined.

Lemma saved_record_is_read_back_witness :
  ∃ fs', save_idea notes padded empty_notes = Ok fs'
         ∧ from_markdown fs' (get_idea_file_path notes 7)
           = Ok (mkIdea 7 (YStr "T") 7 (str_list []) "C").
Proof.
  apply (saved_record_is_read_back notes empty_notes padded).
  - by vm_compute.
  - by vm_compute.
  - split; [by vm_compute|].
    exists [("id", YInt 7); ("modified", YInt 7); ("tags", YSeq []);
            ("title", YStr "T")].
    repeat split; by vm_compute.
Defined.

Lemma created_record_is_loaded_witness :
  ∃ r fs', create_new_idea notes ten_o_clock "T" ["a"] "C" empty_notes
           = Ok (r, fs')
           ∧ id r = stamp_of ten_o_clock ∧ modified r = id r
           ∧ title r = YStr "T" ∧ tags r = str_list ["a"]
           ∧ content r = "C"
           ∧ load_idea_by_id notes fs' (id r)
             = Ok (Some (set_content (strip (universal_newlines "C")) r)).
Proof.
  apply (created_record_is_loaded notes empty_notes ten_o_clock "T" ["a"] "C").
  - exact valid_ten_o_clock.
  - by vm_compute.
  - by vm_compute.
  - exact storable_T.
Defined.

Lemma delete_then_load_witness :
  ∃ fs', delete_idea notes 261104100000 notes_with_T = Ok (true, fs')
         ∧ fs' = delete (get_idea_file_path notes 261104100000) notes_with_T
         ∧ load_idea_by_id notes fs' 261104100000 = Ok None
         ∧ delete_idea notes 261104100000 fs' = Ok (false, fs').
Proof.
  apply (delete_then_load notes notes_with_T 261104100000
           (to_markdown (mkIdea 261104100000 (YStr "T") 261104100000
                                (str_list ["a"]) "C"))).
  by vm_compute.
Defined.

Lemma same_second_create_overwrites_witness :
  ∃ r1 fs1 r2 fs2,
    create_new_idea notes ten_o_clock "T" ["a"] "C" empty_notes
    = Ok (r1, fs1)
    ∧ r1 = mkIdea (stamp_of ten_o_clock) (YStr "T") (stamp_of ten_o_clock)
                  (str_list ["a"]) "C"
    ∧ fs1 = <[get_idea_file_path notes (id r1) := File (to_markdown r1)]>
              empty_notes
    ∧ create_new_idea notes half_a_second_later "U" [] "D" fs1 = Ok (r2, fs2)
    ∧ r2 = mkIdea (stamp_of ten_o_clock) (YStr "U") (stamp_of ten_o_clock)
                  (str_list []) "D"
    ∧ id r2 = id r1
    ∧ fs2 !! get_idea_file_path notes (id r1) = Some (File (to_markdown r2))
    ∧ fs2 = <[get_idea_file_path notes (id r1) := File (to_markdown r2)]>
              empty_notes
    ∧ create_new_idea notes half_a_second_later "U" [] "D" empty_notes
      = Ok (r2, fs2).
Proof.
  apply same_second_create_overwrites.
  - exact valid_ten_o_clock.
  - exact valid_half_a_second_later.
  - reflexivity.
  - by vm_compute.
  - by vm_compute.
Defined.

Lemma update_rewrites_loaded_record_witness :
  let idea := mkIdea 261104100000 (YStr "T") 261104100000
                     (str_list ["a"]) "C" in
  ∃ u stamp,
    generate_timestamp one_second_later = Ok stamp
    ∧ update_idea notes one_second_later 261104100000 (Some "New") None
                  (Some "") notes_with_T
      = Ok (true,
            <[get_idea_file_path notes (id idea) := File (to_markdown u)]>
              notes_with_T)
    ∧ id u = id idea ∧ modified u = stamp
    ∧ title u = YStr "New"
    ∧ tags u = tags idea
    ∧ content u = content idea.
Proof.
  apply (update_rewrites_loaded_record notes notes_with_T one_second_later
           261104100000
           (mkIdea 261104100000 (YStr "T") 261104100000 (str_list ["a"]) "C")
           (Some "New") None (Some "")).
  - exact valid_one_second_later.
  - by vm_compute.
  - by vm_compute.
  - by vm_compute.
Defined.

Lemma update_follows_stored_id_witness :
  ∃ fs', update_idea notes one_second_later 5 (Some "New") None None
                     notes_misfiled
         = Ok (true, fs')
         ∧ fs' !! get_idea_file_path notes 5
           = notes_misfiled !! get_idea_file_path notes 5
         ∧ is_Some (fs' !! get_idea_file_path notes 7)
         ∧ load_idea_by_id notes fs' 5
           = Ok (Some (mkIdea 7 (YStr "T") 7 (str_list []) "C")).
Proof.
  apply (update_follows_stored_id notes notes_misfiled one_second_later 5
           (mkIdea 7 (YStr "T") 7 (str_list []) "C") (Some "New") None None).
  - exact valid_one_second_later.
  - by vm_compute.
  - by vm_compute.
  - simpl. lia.
  - by vm_compute.
Defined.

Lemma update_then_load_witness :
  let u := updated (mkIdea 261104100000 (YStr "T") 261104100000
                           (str_list ["a"]) "C")
                   (Some "New") None None (stamp_of one_second_later) in
  ∃ fs', update_idea notes one_second_later 261104100000 (Some "New") None
                     None notes_with_T
         = Ok (true, fs')
         ∧ load_idea_by_id notes fs' 261104100000
           = Ok (Some (set_content
                         (strip (universal_newlines (content u))) u)).
Proof.
  apply (update_then_load notes notes_with_T one_second_later 261104100000
           (mkIdea 261104100000 (YStr "T") 261104100000 (str_list ["a"]) "C")
           (Some "New") None None).
  - exact valid_one_second_later.
  - by vm_compute.
  - by vm_compute.
  - reflexivity.
  - exact storable_New.
Defined.

Lemma from_markdown_raises_only_malformed_witness :
  malformed text_with_infinite_id OverflowError
  ∧ ((∃ before metadata body,
        split "---" 2 text_with_infinite_id = [before; metadata; body]
        ∧ yaml_safe_load metadata = Raise OverflowError)
     ∨ OverflowError = ValueError ∨ OverflowError = TypeError
     ∨ OverflowError = KeyError ∨ OverflowError = OverflowError).
Proof. apply from_markdown_raises_only_malformed. by vm_compute. Defined.

Lemma loaded_content_is_stripped_witness :
  let r := mkIdea 7 (YStr "T") 7 (YSeq []) "C" in
  strip (content r) = content r
  ∧ (∀ c rest, content r = String c rest → isspace c = false)
  ∧ (∀ c, last_char (content r) = Some c → isspace c = false).
Proof.
  apply (loaded_content_is_stripped (universal_newlines (to_markdown padded))).
  by vm_compute.
Defined.

Lemma load_all_ideas_aborts_witness :
  ∃ n' e', load_all_ideas notes notes_with_bad_file = Raise e'
           ∧ is_Some (notes_with_bad_file !! (directory notes ++ [n']))
           ∧ endswith ".md" n' = true
           ∧ from_markdown notes_with_bad_file (directory notes ++ [n'])
             = Raise e'.
Proof.
  apply (load_all_ideas_aborts notes notes_with_bad_file "bad.md" ValueError).
  - by vm_compute.
  - by exists (File "no markers here").
  - by vm_compute.
  - by vm_compute.
Defined.

Lemma load_all_ideas_without_md_witness :
  load_all_ideas notes notes_without_md = Ok []
  ∧ ∀ ideas, load_all_ideas notes notes_without_md = Ok ideas →
             length ideas = 0.
Proof.
  apply load_all_ideas_without_md.
  - by vm_compute.
  - intros n [v Hv]. unfold notes_without_md, empty_notes in Hv.
    simpl in Hv.
    destruct (decide (n = "todo.txt")) as [->|Htxt]; [by vm_compute|].
    destruct (decide (n = "old")) as [->|Hold]; [by vm_compute|].
    rewrite lookup_insert_ne in Hv by congruence.
    rewrite lookup_insert_ne in Hv by congruence.
    rewrite lookup_insert_ne in Hv by done.
    by rewrite lookup_singleton_ne in Hv.
Defined.

Lemma init_twice_witness :
  mkIdeaManager ["home"; "notes"] = mkIdeaManager ["home"; "notes"]
  ∧ is_Some (home_notes_made !! ["home"; "notes"])
  ∧ IdeaManager_init ["home"; "notes"] home_notes_made
    = Ok (mkIdeaManager ["home"; "notes"], home_notes_made).
Proof.
  apply (init_twice {[ [] := Dir ]}).
  apply (Ok_pair _ (mkIdeaManager ["home"; "notes"]) ∅). by vm_compute.
Defined.

Lemma store_on_a_file_is_unusable_witness :
  IdeaManager_init ["notes"] notes_is_a_file
  = Ok (mkIdeaManager ["notes"], notes_is_a_file)
  ∧ create_new_idea (mkIdeaManager ["notes"]) ten_o_clock "T" ["a"] "C"
                    notes_is_a_file
    = Raise NotADirectoryError
  ∧ load_all_ideas (mkIdeaManager ["notes"]) notes_is_a_file
    = Raise NotADirectoryError.
Proof.
  apply (store_on_a_file_is_unusable notes_is_a_file ["notes"] "x").
  - exact well_formed_notes_is_a_file.
  - by vm_compute.
  - exact valid_ten_o_clock.
Defined.

Lemma fresh_store_is_empty_witness :
  ∃ self fs', IdeaManager_init ["home"; "notes"] {[ [] := Dir ]}
              = Ok (self, fs')
              ∧ fs' !! ["home"; "notes"] = Some Dir
              ∧ load_all_ideas self fs' = Ok [].
Proof.
  apply (fresh_store_is_empty {[ [] := Dir ]} ["home"; "notes"]
           well_formed_root).
  - by vm_compute.
  - intros q text _ [_ [=]]%lookup_singleton_Some.
Defined.

End MoreRuns.
